(** * Red-cyan anaglyph converter: a shallow embedding of [anaglyph.py]

    The script has three parts, embedded in this order:
    - the channel arithmetic of [create_anaglyph] (offset, split, merge);
    - the file handling of [create_anaglyph] and the sweep of
      [process_directory], as state passing over a file system and a log
      of the calls that leave the program;
    - the command line entry point.

    The imaging library and the operating system are not part of the
    script.  The raster operations the script calls are written out here
    the way the imaging library computes them; file decoding, encoding
    and the directory calls are the fields of a [Platform], so every
    theorem holds whatever the codecs and the file system do.

    Integers are Python integers, hence [Z]; the imaging library takes
    the two offsets as C integers and raises OverflowError for a value
    that does not fit.  Strings are sequences of code points below
    256. *)

From Stdlib Require Import ZArith List Bool Lia Ascii String.
Import ListNotations.

Local Open Scope string_scope.
Local Open Scope Z_scope.

(** ** Rasters *)

(** An image in memory: its size and its rows, [image[y][x]]. *)
Record Raster (A : Type) : Type := mkRaster {
  xsize : nat;
  ysize : nat;
  image : list (list A)
}.

Arguments mkRaster {A} _ _ _.
Arguments xsize {A} _.
Arguments ysize {A} _.
Arguments image {A} _.

(** A pixel of mode "RGB". *)
Record Pixel : Type := mkPixel {
  red : Z;
  green : Z;
  blue : Z
}.

(** Mode "RGB" images and mode "L" bands. *)
Definition Image : Type := Raster Pixel.
Definition Band : Type := Raster Z.

Definition black : Pixel := mkPixel 0 0 0.

Definition getpixel {A : Type} (d : A) (im : Raster A) (x y : nat) : A :=
  nth x (nth y (image im) []) d.

(** The rows have the announced shape. *)
Definition well_shaped {A : Type} (im : Raster A) : Prop :=
  List.length (image im) = ysize im /\
  Forall (fun row => List.length row = xsize im) (image im).

Definition well_shapedb {A : Type} (im : Raster A) : bool :=
  Nat.eqb (List.length (image im)) (ysize im) &&
  forallb (fun row => Nat.eqb (List.length row) (xsize im)) (image im).

(** At least one pixel, rows of the announced shape. *)
Definition valid_imageb {A : Type} (im : Raster A) : bool :=
  Nat.ltb 0 (xsize im) && Nat.ltb 0 (ysize im) && well_shapedb im.

(** The double loop [for y ... for x ... out[y][x] = f x y] of the
    library's raster routines. *)
Definition build {A : Type} (w h : nat) (f : nat -> nat -> A) : list (list A) :=
  map (fun y => map (fun x => f x y) (seq 0 w)) (seq 0 h).

(** The routine under [ImageChops.offset].  It first makes both offsets
    positive, with the truncating remainder of C, then copies
    [im[yi][xi]] to [out[y][x]]. *)
Definition positive_offset (offset size : Z) : Z :=
  let o := Z.rem offset size in
  let o := size - o in
  if o <? 0 then o + size else o.

Definition source_index (i : nat) (offset size : Z) : nat :=
  Z.to_nat (Z.rem (Z.of_nat i + positive_offset offset size) size).

Definition ImagingOffset {A : Type} (d : A) (im : Raster A)
    (xoffset yoffset : Z) : Raster A :=
  let w := Z.of_nat (xsize im) in
  let h := Z.of_nat (ysize im) in
  mkRaster (xsize im) (ysize im)
    (build (xsize im) (ysize im)
       (fun x y => getpixel d im (source_index x xoffset w)
                                 (source_index y yoffset h))).

(** The range of a C integer. *)
Definition INT_MIN : Z := -2147483648.
Definition INT_MAX : Z := 2147483647.

Definition fits_int (z : Z) : bool := (INT_MIN <=? z) && (z <=? INT_MAX).

(** What the raster calls of [create_anaglyph] can raise: OverflowError
    on an offset that is no C integer, ValueError in the merge. *)
Inductive Fault : Type :=
| Overflow (value : Z)
| Mismatch (about : string).

(** [ImageChops.offset(im, xoffset, yoffset)]: both offsets are
    converted to C integers, then the routine runs. *)
Definition ImageChops_offset {A : Type} (d : A) (im : Raster A)
    (xoffset yoffset : Z) : Fault + Raster A :=
  if negb (fits_int xoffset) then inl (Overflow xoffset)
  else if negb (fits_int yoffset) then inl (Overflow yoffset)
  else inr (ImagingOffset d im xoffset yoffset).

(** [im.split()]: the three bands of an RGB image. *)
Definition band_of (channel : Pixel -> Z) (im : Image) : Band :=
  mkRaster (xsize im) (ysize im) (map (map channel) (image im)).

Definition split (im : Image) : Band * Band * Band :=
  (band_of red im, band_of green im, band_of blue im).

Definition same_size {A B : Type} (a : Raster A) (b : Raster B) : bool :=
  Nat.eqb (xsize a) (xsize b) && Nat.eqb (ysize a) (ysize b).

(** [Image.merge("RGB", (r, g, b))]: a ValueError when a band has
    another size than the first, else the image of the three bands. *)
Definition merge (bands : Band * Band * Band) : Fault + Image :=
  let '(r, g, b) := bands in
  if same_size g r && same_size b r then
    inr (mkRaster (xsize r) (ysize r)
           (build (xsize r) (ysize r)
              (fun x y => mkPixel (getpixel 0 r x y)
                                  (getpixel 0 g x y)
                                  (getpixel 0 b x y))))
  else inl (Mismatch "size mismatch").

(** Lines 45 to 55 of [create_anaglyph]: the image handed to [save]. *)
Definition anaglyph_of (img : Image) (offset : Z) : Fault + Image :=
  match ImageChops_offset black img (- offset) 0 with
  | inl fault => inl fault
  | inr left_img =>
      let left_red := fst (fst (split left_img)) in
      let right_green := snd (fst (split img)) in
      let right_blue := snd (split img) in
      merge (left_red, right_green, right_blue)
  end.

(** The offsets whose opposite is a C integer. *)
Definition offset_in_range (offset : Z) : Prop :=
  -2147483647 <= offset <= 2147483648.

(** ** Strings and paths *)

(** [str.lower] on the code points below 256: the letters A to Z and
    the capital letters of Latin-1. *)
Definition lower_char (c : ascii) : ascii :=
  let n := nat_of_ascii c in
  if (Nat.leb 65 n && Nat.leb n 90) ||
     (Nat.leb 192 n && Nat.leb n 222 && negb (Nat.eqb n 215))
  then ascii_of_nat (n + 32) else c.

Fixpoint lower (s : string) : string :=
  match s with
  | EmptyString => EmptyString
  | String c s' => String (lower_char c) (lower s')
  end.

(** [s.rfind(c)]: the last index of [c], or -1. *)
Fixpoint rfind_from (c : ascii) (s : string) (i : Z) : Z :=
  match s with
  | EmptyString => -1
  | String a s' =>
      let r := rfind_from c s' (i + 1) in
      if 0 <=? r then r else if Ascii.eqb a c then i else -1
  end.

Definition rfind (c : ascii) (s : string) : Z := rfind_from c s 0.

(** The slices [s[:n]], [s[n:]] and [s[i:i+1]]. *)
Fixpoint take (n : nat) (s : string) : string :=
  match n, s with
  | S n', String c s' => String c (take n' s')
  | _, _ => EmptyString
  end.

Fixpoint drop (n : nat) (s : string) : string :=
  match n, s with
  | S n', String _ s' => drop n' s'
  | _, _ => s
  end.

Definition slice1 (s : string) (i : nat) : string :=
  match String.get i s with
  | Some c => String c EmptyString
  | None => EmptyString
  end.

(** The loop of [os.path.splitext] that skips the leading dots of the
    file name: is there a character other than a dot among the [count]
    characters from [filenameIndex] on? *)
Fixpoint name_before_dot (p : string) (filenameIndex count : nat) : bool :=
  match count with
  | O => false
  | S count' =>
      if negb (String.eqb (slice1 p filenameIndex) ".") then true
      else name_before_dot p (S filenameIndex) count'
  end.

(** [os.path.splitext] (POSIX flavour). *)
Definition splitext (p : string) : string * string :=
  let sepIndex := rfind "/" p in
  let dotIndex := rfind "." p in
  if (sepIndex <? dotIndex) &&
     name_before_dot p (Z.to_nat (sepIndex + 1))
                       (Z.to_nat (dotIndex - (sepIndex + 1)))
  then (take (Z.to_nat dotIndex) p, drop (Z.to_nat dotIndex) p)
  else (p, EmptyString).

Fixpoint endswith_char (c : ascii) (s : string) : bool :=
  match s with
  | EmptyString => false
  | String a EmptyString => Ascii.eqb a c
  | String _ s' => endswith_char c s'
  end.

(** [os.path.join] of two components (POSIX flavour). *)
Definition join (a b : string) : string :=
  if String.prefix "/" b then b
  else if String.eqb a "" || endswith_char "/" a then a ++ b
  else a ++ "/" ++ b.

(** [int(s)] in base ten: white space around, an optional sign, digits
    with single underscores between them, at most 4300 digits (the
    default limit of the interpreter).  [None] is a ValueError.  White
    space is what the conversion skips: tab to carriage return and the
    space, and the two spaces of Latin-1, which it first turns into a
    space. *)
Definition is_space (c : ascii) : bool :=
  let n := nat_of_ascii c in
  (Nat.leb 9 n && Nat.leb n 13) || Nat.eqb n 32 ||
  Nat.eqb n 133 || Nat.eqb n 160.

Definition digit_of (c : ascii) : option Z :=
  let n := nat_of_ascii c in
  if Nat.leb 48 n && Nat.leb n 57 then Some (Z.of_nat n - 48) else None.

Fixpoint lstrip (s : string) : string :=
  match s with
  | String c s' => if is_space c then lstrip s' else s
  | EmptyString => EmptyString
  end.

Fixpoint rstrip (s : string) : string :=
  match s with
  | EmptyString => EmptyString
  | String c s' =>
      let r := rstrip s' in
      if is_space c && String.eqb r "" then EmptyString else String c r
  end.

Fixpoint digits (s : string) (acc : Z) (after_digit : bool) : option Z :=
  match s with
  | EmptyString => if after_digit then Some acc else None
  | String c s' =>
      match digit_of c with
      | Some d => digits s' (10 * acc + d) true
      | None =>
          if Ascii.eqb c "_" && after_digit then digits s' acc false
          else None
      end
  end.

Fixpoint digit_count (s : string) : nat :=
  match s with
  | EmptyString => O
  | String c s' =>
      match digit_of c with
      | Some _ => S (digit_count s')
      | None => digit_count s'
      end
  end.

Definition max_str_digits : nat := 4300.

Definition limited_digits (s : string) : option Z :=
  if Nat.ltb max_str_digits (digit_count s) then None
  else digits s 0 false.

Definition int (s : string) : option Z :=
  match rstrip (lstrip s) with
  | String "+" r => limited_digits r
  | String "-" r => option_map Z.opp (limited_digits r)
  | t => limited_digits t
  end.

(** ** The platform: codecs and file system *)

Class Platform : Type := {
  (** the state of the file system *)
  FS : Type;
  (** a decoded image, in whatever mode the file has *)
  RawImage : Type;
  (** the exceptions of the imaging library and of [os] *)
  Err : Type;
  (** [str(e)] *)
  err_str : Err -> string;
  (** [Image.open(path)] *)
  Image_open : string -> FS -> Err + RawImage;
  (** [.convert("RGB")] *)
  convert_RGB : RawImage -> Err + Image;
  (** [img.save(path)]: the exception if any, and the file system left *)
  Image_save : Image -> string -> FS -> option Err * FS;
  os_path_exists : string -> FS -> bool;
  os_path_isdir : string -> FS -> bool;
  os_makedirs : string -> FS -> option Err * FS;
  os_listdir : string -> FS -> Err + list string
}.

(** What leaves the program, in order.  [Called] marks the entry of
    [create_anaglyph]; the others are calls of the platform. *)
Inductive Event : Type :=
| Called (input_path output_path : string) (offset : Z)
| Opened (path : string)
| Saved (path : string) (img : Image)
| Printed (line : string)
| Tested (path : string)
| MadeDirs (path : string)
| Listed (path : string).

Inductive Exception {P : Platform} : Type :=
| ValueError (about : string)
| OverflowError (value : Z)
| LibraryError (e : Err).

(** How a call ends: a value, an exception, or [sys.exit(code)]. *)
Inductive Outcome {P : Platform} (A : Type) : Type :=
| Returned (a : A)
| Raised (e : Exception)
| Exited (code : Z).

Arguments Returned {P A} _.
Arguments Raised {P A} _.
Arguments Exited {P A} _.

Record World {P : Platform} : Type := mkWorld {
  fs : FS;
  log : list Event
}.

Arguments mkWorld {P} _ _.

Definition M {P : Platform} (A : Type) : Type := World -> Outcome A * World.

Definition ret {P : Platform} {A : Type} (a : A) : M A :=
  fun w => (Returned a, w).

Definition bind {P : Platform} {A B : Type} (m : M A) (k : A -> M B) : M B :=
  fun w =>
    match m w with
    | (Returned a, w') => k a w'
    | (Raised e, w') => (Raised e, w')
    | (Exited c, w') => (Exited c, w')
    end.

Notation "x <- c1 ;; c2" := (bind c1 (fun x => c2))
  (at level 61, c1 at next level, right associativity).
Notation "c1 ;; c2" := (bind c1 (fun _ => c2))
  (at level 61, right associativity).

Definition emit {P : Platform} (e : Event) : M unit :=
  fun w => (Returned tt, mkWorld (fs w) (log w ++ [e])%list).

Definition raise {P : Platform} {A : Type} (e : Exception) : M A :=
  fun w => (Raised e, w).

Definition sys_exit {P : Platform} {A : Type} (code : Z) : M A :=
  fun w => (Exited code, w).

Definition print {P : Platform} (line : string) : M unit :=
  emit (Printed line).

(** [Image.open(path).convert("RGB")], the body of the first [try]. *)
Definition load {P : Platform} (path : string) (files : FS) : Err + Image :=
  match Image_open path files with
  | inl e => inl e
  | inr raw => convert_RGB raw
  end.

Definition open_rgb {P : Platform} (path : string) : M (Err + Image) :=
  emit (Opened path) ;;
  fun w => (Returned (load path (fs w)), w).

Definition save {P : Platform} (img : Image) (path : string) : M (option Err) :=
  emit (Saved path img) ;;
  fun w =>
    let '(r, files) := Image_save img path (fs w) in
    (Returned r, mkWorld files (log w)).

Definition isdir {P : Platform} (path : string) : M bool :=
  emit (Tested path) ;;
  fun w => (Returned (os_path_isdir path (fs w)), w).

Definition path_exists {P : Platform} (path : string) : M bool :=
  emit (Tested path) ;;
  fun w => (Returned (os_path_exists path (fs w)), w).

Definition makedirs {P : Platform} (path : string) : M unit :=
  emit (MadeDirs path) ;;
  fun w =>
    match os_makedirs path (fs w) with
    | (None, files) => (Returned tt, mkWorld files (log w))
    | (Some e, files) => (Raised (LibraryError e), mkWorld files (log w))
    end.

Definition listdir {P : Platform} (path : string) : M (list string) :=
  emit (Listed path) ;;
  fun w =>
    match os_listdir path (fs w) with
    | inr names => (Returned names, w)
    | inl e => (Raised (LibraryError e), w)
    end.

(** ** The script *)

(** [create_anaglyph(input_path, output_path, offset)]. *)
Definition create_anaglyph {P : Platform}
    (input_path output_path : string) (offset : Z) : M bool :=
  emit (Called input_path output_path offset) ;;
  opened <- open_rgb input_path ;;
  match opened with
  | inl e =>
      print ("Error opening " ++ input_path ++ ": " ++ err_str e) ;;
      ret false
  | inr img =>
      match anaglyph_of img offset with
      | inl (Overflow value) => raise (OverflowError value)
      | inl (Mismatch about) => raise (ValueError about)
      | inr anaglyph =>
          saved <- save anaglyph output_path ;;
          match saved with
          | None =>
              print ("Anaglyph saved as " ++ output_path) ;;
              ret true
          | Some e =>
              print ("Error saving " ++ output_path ++ ": " ++ err_str e) ;;
              ret false
          end
      end
  end.

Definition allowed_ext : list string :=
  [".jpg"; ".jpeg"; ".png"; ".bmp"; ".tiff"; ".tif"].

Definition mem (s : string) (l : list string) : bool :=
  existsb (String.eqb s) l.

(** The body of the loop of [process_directory]. *)
Definition process_entry {P : Platform}
    (input_dir output_dir : string) (offset : Z) (filename : string) : M unit :=
  let file_lower := lower filename in
  let '(_, ext) := splitext file_lower in
  if mem ext allowed_ext then
    let input_file := join input_dir filename in
    let '(base, ext_original) := splitext filename in
    let output_file := join output_dir (base ++ "_anaglyph" ++ ext_original) in
    create_anaglyph input_file output_file offset ;;
    ret tt
  else
    print ("Skipping non-image file: " ++ filename).

Fixpoint for_each {P : Platform} {A : Type} (l : list A) (body : A -> M unit) : M unit :=
  match l with
  | [] => ret tt
  | a :: l' => body a ;; for_each l' body
  end.

Definition sweep {P : Platform}
    (input_dir output_dir : string) (offset : Z) (names : list string) : M unit :=
  for_each names (process_entry input_dir output_dir offset).

(** The lines of [process_directory] before its loop: the output
    directory is created when absent, the input directory is listed. *)
Definition prepare {P : Platform} (input_dir output_dir : string) : M (list string) :=
  present <- path_exists output_dir ;;
  (if negb present then makedirs output_dir else ret tt) ;;
  listdir input_dir.

(** [process_directory(input_dir, output_dir, offset)]. *)
Definition process_directory {P : Platform}
    (input_dir output_dir : string) (offset : Z) : M unit :=
  names <- prepare input_dir output_dir ;;
  sweep input_dir output_dir offset names.

Definition usage : string :=
  "Usage: python create_anaglyph.py input_image_or_directory output_image_or_directory [offset]".

Definition mismatch : string :=
  "Error: When input is a directory, output must also be a directory.".

(** The block under [if __name__ == "__main__"], on [sys.argv]. *)
Definition main {P : Platform} (argv : list string) : M unit :=
  if (List.length argv <? 3)%nat then
    print usage ;;
    sys_exit 1
  else
    let input_path := nth 1 argv "" in
    let output_path := nth 2 argv "" in
    offset_val <-
      (if (3 <? List.length argv)%nat then
         match int (nth 3 argv "") with
         | Some n => ret n
         | None => raise (ValueError (nth 3 argv ""))
         end
       else ret 10) ;;
    input_is_dir <- isdir input_path ;;
    if input_is_dir then
      output_is_dir <- isdir output_path ;;
      if negb output_is_dir then
        print mismatch ;;
        sys_exit 1
      else
        process_directory input_path output_path offset_val
    else
      create_anaglyph input_path output_path offset_val ;;
      ret tt.

(** ** Reading the log and the outcome *)

Definition calls (l : list Event) : list (string * string * Z) :=
  flat_map (fun e => match e with
                     | Called i o k => [(i, o, k)]
                     | _ => []
                     end) l.

Definition saved_images (l : list Event) : list (string * Image) :=
  flat_map (fun e => match e with
                     | Saved path img => [(path, img)]
                     | _ => []
                     end) l.

Definition listings (l : list Event) : list string :=
  flat_map (fun e => match e with
                     | Listed path => [path]
                     | _ => []
                     end) l.

Definition printed (l : list Event) : list string :=
  flat_map (fun e => match e with
                     | Printed line => [line]
                     | _ => []
                     end) l.

Definition made_dirs (l : list Event) : list string :=
  flat_map (fun e => match e with
                     | MadeDirs path => [path]
                     | _ => []
                     end) l.

(** The events [create_anaglyph] can leave. *)
Definition converter_event (e : Event) : Prop :=
  match e with
  | Called _ _ _ | Opened _ | Saved _ _ | Printed _ => True
  | Tested _ | MadeDirs _ | Listed _ => False
  end.

(** The three channels fit in eight bits. *)
Definition eight_bit (p : Pixel) : Prop :=
  (0 <= red p <= 255) /\ (0 <= green p <= 255) /\ (0 <= blue p <= 255).



(** ** The batch driver in the words of its description *)

Definition stem (filename : string) : string := fst (splitext filename).

Definition extension (filename : string) : string := snd (splitext filename).

(** The extension, whatever its letter case, is one of the allowed ones. *)
Definition has_image_extension (filename : string) : bool :=
  mem (lower (extension filename)) allowed_ext.

(** The name with [_anaglyph] before the extension as it was written. *)
Definition anaglyph_name (filename : string) : string :=
  stem filename ++ "_anaglyph" ++ extension filename.

Definition planned (input_dir output_dir : string) (offset : Z)
    (filename : string) : string * string * Z :=
  (join input_dir filename, join output_dir (anaglyph_name filename), offset).

(** Every subdirectory of the input directory stays out of the
    converter, whatever its name. *)
Definition subdirectories_never_converted {P : Platform}
    (input_dir output_dir : string) (offset : Z) (w : World) : Prop :=
  forall names d,
    os_listdir input_dir (fs w) = inr names ->
    In d names ->
    os_path_isdir (join input_dir d) (fs w) = true ->
    forall o k,
      ~ In (Called (join input_dir d) o k)
           (log (snd (process_directory input_dir output_dir offset w))).

(** The part of the log the converter writes when every call has come
    back: each call ends in the line that tells how it went, each
    skipped entry leaves its notice. *)
Inductive reported : list Event -> Prop :=
| reported_nothing : reported []
| reported_skipped filename l :
    reported l ->
    reported (Printed ("Skipping non-image file: " ++ filename) :: l)
| reported_not_opened i o k cause l :
    reported l ->
    reported (Called i o k :: Opened i ::
              Printed ("Error opening " ++ i ++ ": " ++ cause) :: l)
| reported_saved i o k out l :
    reported l ->
    reported (Called i o k :: Opened i :: Saved o out ::
              Printed ("Anaglyph saved as " ++ o) :: l)
| reported_not_saved i o k out cause l :
    reported l ->
    reported (Called i o k :: Opened i :: Saved o out ::
              Printed ("Error saving " ++ o ++ ": " ++ cause) :: l).

(** ** What is said of every offset *)

(** The saved image has the red plane of [img] shifted by [k], and the
    offset [k mod W] saves the same image. *)
Definition red_plane_shifted {P : Platform}
    (input_path output_path : string) (k : Z) (w : World) (img : Image) : Prop :=
  exists out,
    saved_images (log (snd (create_anaglyph input_path output_path k w)))
    = (saved_images (log w) ++ [(output_path, out)])%list /\
    (forall x y, (x < xsize img)%nat -> (y < ysize img)%nat ->
       red (getpixel black out x y)
       = red (getpixel black img
                (Z.to_nat ((Z.of_nat x + k) mod Z.of_nat (xsize img))) y)) /\
    saved_images
      (log (snd (create_anaglyph input_path output_path
                   (k mod Z.of_nat (xsize img)) w)))
    = (saved_images (log w) ++ [(output_path, out)])%list.

(** The saved image has the green and blue planes of [img]. *)
Definition cyan_planes_kept {P : Platform}
    (input_path output_path : string) (k : Z) (w : World) (img : Image) : Prop :=
  exists out,
    saved_images (log (snd (create_anaglyph input_path output_path k w)))
    = (saved_images (log w) ++ [(output_path, out)])%list /\
    forall x y, (x < xsize img)%nat -> (y < ysize img)%nat ->
      green (getpixel black out x y) = green (getpixel black img x y) /\
      blue (getpixel black out x y) = blue (getpixel black img x y).

(** The saved image has the width and the height of [img]. *)
Definition dimensions_kept {P : Platform}
    (input_path output_path : string) (k : Z) (w : World) (img : Image) : Prop :=
  exists out,
    saved_images (log (snd (create_anaglyph input_path output_path k w)))
    = (saved_images (log w) ++ [(output_path, out)])%list /\
    xsize out = xsize img /\ ysize out = ysize img /\ well_shaped out.



(** ** A small platform to run the script on *)

Inductive Node : Type :=
| Directory (names : list string)
| File (content : option Image).

Definition Disk : Type := list (string * Node).

Fixpoint find_node (path : string) (d : Disk) : option Node :=
  match d with
  | [] => None
  | (p, n) :: d' => if String.eqb p path then Some n else find_node path d'
  end.

Definition sample_open (path : string) (d : Disk) : string + Image :=
  match find_node path d with
  | None => inl "No such file or directory"
  | Some (Directory _) => inl "Is a directory"
  | Some (File None) => inl "cannot identify image file"
  | Some (File (Some img)) => inr img
  end.

Definition sample_convert (raw : Image) : string + Image :=
  if valid_imageb raw then inr raw else inl "image file is truncated".

Definition sample_save (img : Image) (path : string) (d : Disk)
    : option string * Disk :=
  if String.eqb (snd (splitext path)) "" then
    (Some "unknown file extension", d)
  else (None, (path, File (Some img)) :: d).

Definition sample_exists (path : string) (d : Disk) : bool :=
  match find_node path d with
  | Some _ => true
  | None => false
  end.

Definition sample_isdir (path : string) (d : Disk) : bool :=
  match find_node path d with
  | Some (Directory _) => true
  | _ => false
  end.

Definition sample_makedirs (path : string) (d : Disk) : option string * Disk :=
  (None, (path, Directory []) :: d).

Definition sample_listdir (path : string) (d : Disk) : string + list string :=
  match find_node path d with
  | Some (Directory names) => inr names
  | _ => inl "Not a directory"
  end.

Definition sample : Platform := {|
  FS := Disk;
  RawImage := Image;
  Err := string;
  err_str := fun e => e;
  Image_open := sample_open;
  convert_RGB := sample_convert;
  Image_save := sample_save;
  os_path_exists := sample_exists;
  os_path_isdir := sample_isdir;
  os_makedirs := sample_makedirs;
  os_listdir := sample_listdir
|}.

(** Three columns, two rows, every channel value different. *)
Definition photo : Image :=
  mkRaster 3 2
    [[mkPixel 10 11 12; mkPixel 20 21 22; mkPixel 30 31 32];
     [mkPixel 40 41 42; mkPixel 50 51 52; mkPixel 60 61 62]].

Definition disk : Disk :=
  [("in", Directory ["photo.JPG"; "notes.txt"; "pic.png"]);
   ("in/photo.JPG", File (Some photo));
   ("in/notes.txt", File None);
   ("in/pic.png", File (Some photo));
   ("out", Directory []);
   ("photo.jpg", File (Some photo));
   ("broken.png", File None)].

(** A directory with two subdirectories, one of them named like an
    image, ahead of a photograph. *)
Definition disk_with_folders : Disk :=
  [("in", Directory ["album.png"; "old"; "photo.JPG"]);
   ("in/album.png", Directory []);
   ("in/old", Directory ["x.jpg"]);
   ("in/photo.JPG", File (Some photo));
   ("out", Directory [])].

Definition start : @World sample := mkWorld (P := sample) disk [].

Definition start_with_folders : @World sample :=
  mkWorld (P := sample) disk_with_folders [].

(** ** Lemmas on rasters *)

Lemma getpixel_build {A : Type} (d : A) (w h : nat) (f : nat -> nat -> A) x y :
  (x < w)%nat -> (y < h)%nat ->
  nth x (nth y (build w h f) []) d = f x y.
Proof.
  intros Hx Hy. unfold build.
  rewrite (nth_indep _ [] (map (fun x0 => f x0 0%nat) (seq 0 w)))
    by (rewrite length_map, length_seq; exact Hy).
  rewrite (map_nth (fun y0 => map (fun x0 => f x0 y0) (seq 0 w)) (seq 0 h) 0%nat y).
  rewrite seq_nth by exact Hy. simpl.
  rewrite (nth_indep _ d (f 0%nat y))
    by (rewrite length_map, length_seq; exact Hx).
  rewrite (map_nth (fun x0 => f x0 y) (seq 0 w) 0%nat x).
  rewrite seq_nth by exact Hx. reflexivity.
Qed.

Lemma build_ext {A : Type} (w h : nat) (f g : nat -> nat -> A) :
  (forall x y, (x < w)%nat -> (y < h)%nat -> f x y = g x y) ->
  build w h f = build w h g.
Proof.
  intros Hfg. unfold build.
  apply map_ext_in. intros y Hy. apply in_seq in Hy.
  apply map_ext_in. intros x Hx. apply in_seq in Hx.
  apply Hfg; lia.
Qed.

Lemma build_well_shaped {A : Type} (w h : nat) (f : nat -> nat -> A) :
  well_shaped (mkRaster w h (build w h f)).
Proof.
  split; simpl.
  - unfold build. now rewrite length_map, length_seq.
  - unfold build. apply Forall_forall. intros row Hrow.
    apply in_map_iff in Hrow. destruct Hrow as [y [<- _]].
    now rewrite length_map, length_seq.
Qed.

Lemma build_getpixel {A : Type} (d : A) (im : Raster A) :
  well_shaped im ->
  build (xsize im) (ysize im) (getpixel d im) = image im.
Proof.
  intros [Hlen Hrows].
  apply (nth_ext _ _ [] []).
  - unfold build. now rewrite length_map, length_seq.
  - intros y Hy. unfold build in Hy. rewrite length_map, length_seq in Hy.
    assert (Hrow : List.length (nth y (image im) []) = xsize im).
    { rewrite Forall_forall in Hrows. apply Hrows. apply nth_In. lia. }
    apply (nth_ext _ _ d d).
    + unfold build.
      rewrite (nth_indep _ [] (map (fun x0 => getpixel d im x0 0%nat) (seq 0 (xsize im))))
        by (rewrite length_map, length_seq; exact Hy).
      rewrite (map_nth (fun y0 => map (fun x0 => getpixel d im x0 y0) (seq 0 (xsize im)))
                       (seq 0 (ysize im)) 0%nat y).
      rewrite length_map, length_seq. now rewrite Hrow.
    + intros x Hx.
      assert (Hx' : (x < xsize im)%nat).
      { unfold build in Hx.
        rewrite (nth_indep _ [] (map (fun x0 => getpixel d im x0 0%nat) (seq 0 (xsize im)))) in Hx
          by (rewrite length_map, length_seq; exact Hy).
        rewrite (map_nth (fun y0 => map (fun x0 => getpixel d im x0 y0) (seq 0 (xsize im)))
                         (seq 0 (ysize im)) 0%nat y) in Hx.
        now rewrite length_map, length_seq in Hx. }
      now rewrite getpixel_build.
Qed.

(** The offsets made positive by the library address the column
    [(i + k) mod size] when the call asks for [-k]. *)
Lemma source_index_shift (i : nat) (k : Z) (size : nat) :
  (i < size)%nat ->
  source_index i (- k) (Z.of_nat size)
  = Z.to_nat ((Z.of_nat i + k) mod Z.of_nat size).
Proof.
  intros Hi. unfold source_index, positive_offset.
  set (W := Z.of_nat size). assert (HW : 0 < W) by (unfold W; lia).
  assert (Hb : Z.abs (Z.rem (- k) W) < Z.abs W) by (apply Z.rem_bound_abs; lia).
  assert (Hq := Z.quot_rem' (- k) W).
  set (r := Z.rem (- k) W) in *. set (q := Z.quot (- k) W) in *.
  destruct (Z.ltb_spec (W - r) 0) as [Hneg | Hpos]; [lia |].
  rewrite Z.rem_mod_nonneg by lia.
  f_equal.
  replace (Z.of_nat i + (W - r)) with (Z.of_nat i + k + (1 + q) * W) by lia.
  apply Z_mod_plus_full.
Qed.

Lemma source_index_zero (i size : nat) :
  (i < size)%nat -> source_index i 0 (Z.of_nat size) = i.
Proof.
  intros Hi. change 0 with (- 0). rewrite source_index_shift by exact Hi.
  rewrite Z.add_0_r, Z.mod_small by lia. apply Nat2Z.id.
Qed.

Lemma getpixel_band_of (channel : Pixel -> Z) (im : Image) x y :
  channel black = 0 ->
  getpixel 0 (band_of channel im) x y = channel (getpixel black im x y).
Proof.
  intros Hc. unfold getpixel, band_of. simpl.
  change (@nil Z) with (map channel []).
  rewrite (map_nth (map channel)). rewrite <- Hc. apply map_nth.
Qed.

Lemma fits_int_opp (k : Z) :
  fits_int (- k) = true <-> offset_in_range k.
Proof.
  unfold fits_int, offset_in_range, INT_MIN, INT_MAX.
  rewrite andb_true_iff, !Z.leb_le. lia.
Qed.

Lemma offset_in_range_dec (k : Z) :
  {offset_in_range k} + {~ offset_in_range k}.
Proof.
  destruct (fits_int (- k)) eqn:Hfit.
  - left. now apply fits_int_opp.
  - right. intros Hin. apply fits_int_opp in Hin. congruence.
Qed.

(** Inside the range the offset is taken and the merge never meets
    bands of different sizes. *)
Lemma anaglyph_of_merged (img : Image) (offset : Z) :
  offset_in_range offset ->
  anaglyph_of img offset
  = inr (mkRaster (xsize img) (ysize img)
           (build (xsize img) (ysize img)
              (fun x y =>
                 mkPixel
                   (red (getpixel black (ImagingOffset black img (- offset) 0) x y))
                   (green (getpixel black img x y))
                   (blue (getpixel black img x y))))).
Proof.
  intros Hin. apply fits_int_opp in Hin.
  unfold anaglyph_of, ImageChops_offset. rewrite Hin.
  unfold split, merge, same_size. simpl.
  rewrite !Nat.eqb_refl. simpl. do 2 f_equal.
  apply build_ext. intros x y _ _.
  now rewrite !getpixel_band_of.
Qed.

(** Outside the range the offset is refused before any raster work. *)
Lemma anaglyph_of_overflow (img : Image) (offset : Z) :
  ~ offset_in_range offset ->
  anaglyph_of img offset = inl (Overflow (- offset)).
Proof.
  intros Hout. unfold anaglyph_of, ImageChops_offset.
  destruct (fits_int (- offset)) eqn:Hfit; [| reflexivity].
  apply fits_int_opp in Hfit. contradiction.
Qed.

Lemma anaglyph_of_in_range (img out : Image) (offset : Z) :
  anaglyph_of img offset = inr out -> offset_in_range offset.
Proof.
  intros Hout. destruct (offset_in_range_dec offset) as [Hin | Hno];
    [exact Hin |].
  rewrite (anaglyph_of_overflow img offset Hno) in Hout. discriminate.
Qed.

Lemma anaglyph_of_pixel (img : Image) (offset : Z) (x y : nat) :
  (x < xsize img)%nat -> (y < ysize img)%nat ->
  forall out, anaglyph_of img offset = inr out ->
  getpixel black out x y
  = mkPixel
      (red (getpixel black img
              (Z.to_nat ((Z.of_nat x + offset) mod Z.of_nat (xsize img))) y))
      (green (getpixel black img x y))
      (blue (getpixel black img x y)).
Proof.
  intros Hx Hy out Hout.
  rewrite (anaglyph_of_merged img offset (anaglyph_of_in_range _ _ _ Hout)) in Hout.
  injection Hout as <-.
  unfold getpixel at 1. simpl. rewrite getpixel_build by assumption.
  unfold ImagingOffset, getpixel at 1. simpl.
  rewrite getpixel_build by assumption.
  rewrite source_index_shift by assumption.
  now rewrite source_index_zero by assumption.
Qed.

Lemma anaglyph_of_size (img : Image) (offset : Z) :
  forall out, anaglyph_of img offset = inr out ->
  xsize out = xsize img /\ ysize out = ysize img /\ well_shaped out.
Proof.
  intros out Hout.
  rewrite (anaglyph_of_merged img offset (anaglyph_of_in_range _ _ _ Hout)) in Hout.
  injection Hout as <-. simpl. repeat split; apply build_well_shaped.
Qed.

Lemma anaglyph_of_mod (img : Image) (k : Z) :
  (0 < xsize img)%nat ->
  offset_in_range k ->
  offset_in_range (k mod Z.of_nat (xsize img)) ->
  anaglyph_of img (k mod Z.of_nat (xsize img)) = anaglyph_of img k.
Proof.
  intros HW Hk Hmod. rewrite !anaglyph_of_merged by assumption. do 2 f_equal.
  apply build_ext. intros x y Hx Hy. f_equal.
  unfold ImagingOffset, getpixel. simpl.
  rewrite !getpixel_build by assumption.
  rewrite !source_index_shift by assumption.
  now rewrite Z.add_mod_idemp_r by lia.
Qed.

Lemma anaglyph_of_zero (img : Image) :
  well_shaped img -> anaglyph_of img 0 = inr img.
Proof.
  intros Hshape.
  rewrite anaglyph_of_merged by (unfold offset_in_range; lia).
  destruct img as [W H rows]. simpl in *.
  apply f_equal. apply f_equal.
  transitivity (build W H (getpixel black (mkRaster W H rows)));
    [| exact (build_getpixel black (mkRaster W H rows) Hshape)].
  apply build_ext. intros x y Hx Hy.
  unfold ImagingOffset, getpixel at 1. simpl.
  rewrite getpixel_build by assumption.
  rewrite !source_index_zero by assumption.
  now destruct (getpixel black (mkRaster W H rows) x y).
Qed.

Lemma shifted_column_in_range (x : nat) (k : Z) (W : nat) :
  (x < W)%nat -> (Z.to_nat ((Z.of_nat x + k) mod Z.of_nat W) < W)%nat.
Proof.
  intros Hx.
  assert (Hb := Z.mod_pos_bound (Z.of_nat x + k) (Z.of_nat W)). lia.
Qed.

(** Converting a converted image adds the offsets, as long as each
    offset asked of the library is in range. *)
Lemma anaglyph_of_twice (img out : Image) (j k : Z) :
  anaglyph_of img j = inr out ->
  offset_in_range k ->
  offset_in_range (j + k) ->
  anaglyph_of out k = anaglyph_of img (j + k).
Proof.
  intros Hout Hk Hjk.
  rewrite (anaglyph_of_merged img j (anaglyph_of_in_range _ _ _ Hout)) in Hout.
  injection Hout as <-.
  rewrite !anaglyph_of_merged by assumption. simpl. do 2 f_equal.
  apply build_ext. intros x y Hx Hy.
  assert (Hx' := shifted_column_in_range x k (xsize img) Hx).
  unfold ImagingOffset, getpixel. simpl.
  rewrite !getpixel_build by assumption.
  rewrite !source_index_shift, !source_index_zero by assumption.
  rewrite !getpixel_build by assumption. simpl.
  rewrite !source_index_shift, !source_index_zero by assumption.
  rewrite Z2Nat.id by (apply Z.mod_pos_bound; lia).
  rewrite Z.add_mod_idemp_l by lia.
  now replace (Z.of_nat x + k + j) with (Z.of_nat x + (j + k)) by lia.
Qed.

(** ** Lemmas on strings and paths *)

Lemma lower_char_keeps (c a : ascii) :
  c = "."%char \/ c = "/"%char ->
  Ascii.eqb (lower_char a) c = Ascii.eqb a c.
Proof.
  intros [-> | ->]; destruct a as [[] [] [] [] [] [] [] []]; reflexivity.
Qed.

Lemma rfind_from_lower (c : ascii) (s : string) :
  c = "."%char \/ c = "/"%char ->
  forall i, rfind_from c (lower s) i = rfind_from c s i.
Proof.
  intros Hc. induction s as [| a s IH]; intros i; simpl.
  - reflexivity.
  - now rewrite IH, lower_char_keeps.
Qed.

Lemma get_lower (s : string) :
  forall i, String.get i (lower s) = option_map lower_char (String.get i s).
Proof.
  induction s as [| a s IH]; intros [| i]; simpl; auto.
Qed.

Lemma slice1_lower (p : string) (i : nat) :
  String.eqb (slice1 (lower p) i) "." = String.eqb (slice1 p i) ".".
Proof.
  unfold slice1. rewrite get_lower.
  destruct (String.get i p) as [a |]; simpl; [| reflexivity].
  rewrite lower_char_keeps by now left. reflexivity.
Qed.

Lemma name_before_dot_lower (p : string) (count : nat) :
  forall i, name_before_dot (lower p) i count = name_before_dot p i count.
Proof.
  induction count as [| count IH]; intros i; simpl.
  - reflexivity.
  - now rewrite slice1_lower, IH.
Qed.

Lemma take_lower (s : string) :
  forall n, take n (lower s) = lower (take n s).
Proof.
  induction s as [| a s IH]; intros [| n]; simpl; try reflexivity.
  now rewrite IH.
Qed.

Lemma drop_lower (s : string) :
  forall n, drop n (lower s) = lower (drop n s).
Proof.
  induction s as [| a s IH]; intros [| n]; simpl; try reflexivity.
  apply IH.
Qed.

Lemma take_drop (s : string) :
  forall n, take n s ++ drop n s = s.
Proof.
  induction s as [| a s IH]; intros [| n]; simpl; try reflexivity.
  now rewrite IH.
Qed.

(** Lowering the name lowers both parts: the split is found at the same
    place. *)
Lemma splitext_lower (p : string) :
  splitext (lower p) = (lower (fst (splitext p)), lower (snd (splitext p))).
Proof.
  unfold splitext, rfind.
  rewrite !rfind_from_lower by auto.
  rewrite name_before_dot_lower.
  destruct (_ && _); simpl.
  - now rewrite take_lower, drop_lower.
  - reflexivity.
Qed.

Lemma stem_extension (filename : string) :
  stem filename ++ extension filename = filename.
Proof.
  unfold stem, extension, splitext.
  destruct (_ && _); simpl.
  - apply take_drop.
  - induction filename as [| a s IH]; simpl; [reflexivity | now rewrite IH].
Qed.

(** ** Lemmas on the script *)

Lemma calls_app (l l' : list Event) :
  calls (l ++ l')%list = (calls l ++ calls l')%list.
Proof. apply flat_map_app. Qed.

Lemma saved_images_app (l l' : list Event) :
  saved_images (l ++ l')%list = (saved_images l ++ saved_images l')%list.
Proof. apply flat_map_app. Qed.

Lemma listings_app (l l' : list Event) :
  listings (l ++ l')%list = (listings l ++ listings l')%list.
Proof. apply flat_map_app. Qed.

Lemma printed_app (l l' : list Event) :
  printed (l ++ l')%list = (printed l ++ printed l')%list.
Proof. apply flat_map_app. Qed.

Lemma made_dirs_app (l l' : list Event) :
  made_dirs (l ++ l')%list = (made_dirs l ++ made_dirs l')%list.
Proof. apply flat_map_app. Qed.

Lemma converter_events_projections (l : list Event) :
  Forall converter_event l -> made_dirs l = [] /\ listings l = [].
Proof.
  induction 1 as [| e l He _ [IHm IHl]]; [now split |].
  destruct e; simpl in *; try contradiction; now split.
Qed.

Lemma reported_app (l1 l2 : list Event) :
  reported l1 -> reported l2 -> reported (l1 ++ l2)%list.
Proof.
  intros H1 H2. induction H1; simpl; try assumption; now constructor.
Qed.

Ltac run :=
  unfold open_rgb, save, isdir, path_exists, makedirs, listdir,
         print, emit, bind, ret, raise, sys_exit; simpl.

Section Script.

Context {P : Platform}.

Lemma create_anaglyph_load_failed input_path output_path offset (w : World) e :
  load input_path (fs w) = inl e ->
  create_anaglyph input_path output_path offset w
  = (Returned false,
     mkWorld (fs w)
       (log w ++ [Called input_path output_path offset;
                  Opened input_path;
                  Printed ("Error opening " ++ input_path ++ ": " ++ err_str e)])%list).
Proof.
  intros Hload. unfold create_anaglyph. run. rewrite Hload. run.
  now rewrite <- !app_assoc.
Qed.

Lemma create_anaglyph_loaded input_path output_path offset (w : World) img out :
  load input_path (fs w) = inr img ->
  anaglyph_of img offset = inr out ->
  exists ok files line,
    create_anaglyph input_path output_path offset w
    = (Returned ok,
       mkWorld files
         (log w ++ [Called input_path output_path offset;
                    Opened input_path;
                    Saved output_path out;
                    Printed line])%list).
Proof.
  intros Hload Hout. unfold create_anaglyph. run. rewrite Hload, Hout. run.
  destruct (Image_save out output_path (fs w)) as [[e |] files]; run;
    do 3 eexists; rewrite <- !app_assoc; reflexivity.
Qed.

(** Line 46 is outside both [try] blocks: an offset out of range ends
    the call in OverflowError once the image has loaded. *)
Lemma create_anaglyph_overflow input_path output_path offset (w : World) img :
  load input_path (fs w) = inr img ->
  ~ offset_in_range offset ->
  create_anaglyph input_path output_path offset w
  = (Raised (OverflowError (- offset)),
     mkWorld (fs w)
       (log w ++ [Called input_path output_path offset;
                  Opened input_path])%list).
Proof.
  intros Hload Hout. unfold create_anaglyph. run.
  rewrite Hload, (anaglyph_of_overflow img offset Hout). run.
  now rewrite <- !app_assoc.
Qed.

(** What the converter saves when the image loads and the offset is in
    range. *)
Lemma create_anaglyph_saves input_path output_path offset (w : World) img :
  load input_path (fs w) = inr img ->
  offset_in_range offset ->
  exists out,
    anaglyph_of img offset = inr out /\
    saved_images (log (snd (create_anaglyph input_path output_path offset w)))
    = (saved_images (log w) ++ [(output_path, out)])%list.
Proof.
  intros Hload Hin. eexists. split; [apply anaglyph_of_merged; exact Hin |].
  destruct (create_anaglyph_loaded input_path output_path offset w img _
              Hload (anaglyph_of_merged img offset Hin))
    as (ok & files & line & ->).
  simpl. now rewrite saved_images_app.
Qed.

(** What one call of the converter adds to the log, however it ends. *)
Lemma create_anaglyph_log input_path output_path offset (w : World) :
  exists r w' l,
    create_anaglyph input_path output_path offset w = (r, w') /\
    log w' = (log w ++ l)%list /\
    Forall converter_event l /\
    calls l = [(input_path, output_path, offset)] /\
    (saved_images l = [] \/ exists out, saved_images l = [(output_path, out)]) /\
    ((exists ok line, r = Returned ok /\ printed l = [line] /\ reported l) \/
     (r = Raised (OverflowError (- offset)) /\ ~ offset_in_range offset /\
      printed l = [] /\ saved_images l = [])).
Proof.
  destruct (load input_path (fs w)) as [e | img] eqn:Hload.
  - rewrite (create_anaglyph_load_failed _ _ _ _ _ Hload).
    do 3 eexists. split; [reflexivity |]. simpl.
    split; [reflexivity |]. split; [repeat constructor |].
    split; [reflexivity |]. split; [now left |].
    left. do 2 eexists. split; [reflexivity |]. split; [reflexivity |].
    repeat constructor.
  - destruct (offset_in_range_dec offset) as [Hin | Hout].
    + unfold create_anaglyph. run.
      rewrite Hload, (anaglyph_of_merged img offset Hin). run.
      destruct (Image_save _ output_path (fs w)) as [[e |] files]; run;
        do 3 eexists; (split; [reflexivity |]); simpl;
        rewrite <- !app_assoc; simpl;
        (split; [reflexivity |]); (split; [repeat constructor |]);
        (split; [reflexivity |]);
        (split; [right; eexists; reflexivity |]);
        left; do 2 eexists; (split; [reflexivity |]);
        (split; [reflexivity |]); repeat constructor.
    + rewrite (create_anaglyph_overflow _ _ _ _ _ Hload Hout).
      do 3 eexists. split; [reflexivity |]. simpl.
      split; [reflexivity |]. split; [repeat constructor |].
      split; [reflexivity |]. split; [now left |].
      right. now repeat split.
Qed.

(** Inside the range the converter always returns, and leaves one call
    and no listing in the log. *)
Lemma create_anaglyph_returns input_path output_path offset (w : World) :
  offset_in_range offset ->
  exists ok w',
    create_anaglyph input_path output_path offset w = (Returned ok, w') /\
    calls (log w') = (calls (log w) ++ [(input_path, output_path, offset)])%list /\
    listings (log w') = listings (log w).
Proof.
  intros Hin.
  destruct (create_anaglyph_log input_path output_path offset w)
    as (r & w' & l & Hrun & Hlog & Hev & Hcalls & _ & Hend).
  destruct Hend as [(ok & line & -> & _) | (_ & Hout & _)];
    [| contradiction].
  exists ok, w'. split; [exact Hrun |].
  destruct (converter_events_projections l Hev) as [_ Hlist].
  rewrite Hlog, calls_app, listings_app, Hcalls, Hlist.
  now rewrite app_nil_r.
Qed.

(** The loop body in the words of the description. *)
Lemma process_entry_by_extension input_dir output_dir offset filename :
  process_entry input_dir output_dir offset filename
  = if has_image_extension filename then
      create_anaglyph (join input_dir filename)
                      (join output_dir (anaglyph_name filename)) offset ;;
      ret tt
    else print ("Skipping non-image file: " ++ filename).
Proof.
  unfold process_entry, has_image_extension, anaglyph_name, stem, extension.
  rewrite splitext_lower.
  destruct (splitext filename) as [base ext_original]. reflexivity.
Qed.

Lemma process_entry_log input_dir output_dir offset filename (w : World) :
  exists r w' l,
    process_entry input_dir output_dir offset filename w = (r, w') /\
    log w' = (log w ++ l)%list /\
    Forall converter_event l /\
    calls l = (if has_image_extension filename
               then [planned input_dir output_dir offset filename] else []) /\
    Forall (fun saved =>
              has_image_extension filename = true /\
              fst saved = join output_dir (anaglyph_name filename))
           (saved_images l) /\
    ((r = Returned tt /\ (exists line, printed l = [line]) /\ reported l) \/
     (r = Raised (OverflowError (- offset)) /\ ~ offset_in_range offset /\
      printed l = [])).
Proof.
  rewrite process_entry_by_extension.
  destruct (has_image_extension filename).
  - destruct (create_anaglyph_log (join input_dir filename)
                (join output_dir (anaglyph_name filename)) offset w)
      as (r & w' & l & Hrun & Hlog & Hev & Hcalls & Hsaved & Hend).
    unfold bind. rewrite Hrun.
    assert (Hplanned :
      Forall (fun saved =>
                true = true /\
                fst saved = join output_dir (anaglyph_name filename))
             (saved_images l))
      by (destruct Hsaved as [-> | [out ->]]; repeat constructor).
    destruct Hend as [(ok & line & -> & Hline & Hrep) | (-> & Hout & Hline & _)].
    + exists (Returned tt), w', l. unfold ret.
      repeat split; try assumption. left. repeat split; [now exists line | assumption].
    + exists (Raised (OverflowError (- offset))), w', l.
      repeat split; try assumption. right. now repeat split.
  - run. do 3 eexists. split; [reflexivity |]. simpl.
    split; [reflexivity |]. split; [repeat constructor |].
    split; [reflexivity |]. split; [constructor |].
    left. split; [reflexivity |]. split; [eexists; reflexivity |].
    repeat constructor.
Qed.


(** The sweep, however it ends: the entries it got through, what it
    left in the log, and the one way it can stop early. *)
Lemma sweep_log input_dir output_dir offset names :
  forall w : World, exists r w' l done rest,
    sweep input_dir output_dir offset names w = (r, w') /\
    names = (done ++ rest)%list /\
    log w' = (log w ++ l)%list /\
    Forall converter_event l /\
    calls l = map (planned input_dir output_dir offset)
                  (filter has_image_extension done) /\
    Forall (fun saved =>
              exists filename,
                In filename names /\
                has_image_extension filename = true /\
                fst saved = join output_dir (anaglyph_name filename))
           (saved_images l) /\
    ((r = Returned tt /\ rest = [] /\
      List.length (printed l) = List.length names /\ reported l) \/
     (r = Raised (OverflowError (- offset)) /\ ~ offset_in_range offset)).
Proof.
  unfold sweep. induction names as [| f names IH]; intros w; simpl.
  - exists (Returned tt), w, [], [], []. unfold ret.
    split; [reflexivity |]. split; [reflexivity |].
    split; [symmetry; apply app_nil_r |].
    split; [constructor |]. split; [reflexivity |]. split; [constructor |].
    left. repeat split. constructor.
  - destruct (process_entry_log input_dir output_dir offset f w)
      as (r1 & w1 & l1 & Hrun & Hlog & Hev & Hcalls & Hsaved & Hend).
    assert (Hsaved1 :
      Forall (fun saved =>
                exists filename,
                  In filename (f :: names) /\
                  has_image_extension filename = true /\
                  fst saved = join output_dir (anaglyph_name filename))
             (saved_images l1)).
    { eapply Forall_impl; [| exact Hsaved].
      intros saved [Hext Hpath]. exists f. split; [now left | now split]. }
    unfold bind. rewrite Hrun.
    destruct Hend as [(-> & [line Hline] & Hrep) | (-> & Hout & _)].
    + destruct (IH w1)
        as (r & w' & l2 & done & rest & Hrest & Hnames & Hlog' & Hev' &
            Hcalls' & Hsaved' & Hend').
      exists r, w', (l1 ++ l2)%list, (f :: done), rest.
      split; [exact Hrest |].
      split; [now rewrite Hnames |].
      split; [now rewrite Hlog', Hlog, app_assoc |].
      split; [now apply Forall_app |].
      split.
      { rewrite calls_app, Hcalls, Hcalls'. simpl.
        now destruct (has_image_extension f). }
      split.
      { rewrite saved_images_app. apply Forall_app. split; [exact Hsaved1 |].
        eapply Forall_impl; [| exact Hsaved'].
        intros saved (g & Hin & Hext & Hpath). exists g.
        split; [now right | now split]. }
      destruct Hend' as [(-> & -> & Hlen & Hrep') | (-> & Hout)].
      * left. repeat split.
        -- rewrite printed_app, length_app, Hline, Hlen. reflexivity.
        -- now apply reported_app.
      * right. now split.
    + exists (Raised (OverflowError (- offset))), w1, l1, [f], names.
      split; [reflexivity |]. split; [reflexivity |].
      split; [exact Hlog |]. split; [exact Hev |].
      split.
      { rewrite Hcalls. simpl. now destruct (has_image_extension f). }
      split; [exact Hsaved1 |]. right. now split.
Qed.


End Script.

(** ** The converter *)

Section Converter.

Context {P : Platform}.

(** C1 as amended: when the image at [input_path] loads as the RGB
    image [img] of width W > 0 and the offset k is in the range
    -2147483647 .. 2147483648, the image [create_anaglyph] saves has,
    at column x and row y, the red channel of [img] at column
    (x + k) mod W of the same row, and the call with offset k mod W,
    when that is in range, saves the very same image.  With an offset
    outside the range the call ends in OverflowError after the image
    has been opened, and saves nothing. *)
Theorem red_channel_is_circular_shift
    (input_path output_path : string) (k : Z) (w : World) (img : Image) :
  load input_path (fs w) = inr img ->
  (0 < xsize img)%nat ->
  (offset_in_range k ->
   exists out,
     saved_images (log (snd (create_anaglyph input_path output_path k w)))
     = (saved_images (log w) ++ [(output_path, out)])%list /\
     (forall x y, (x < xsize img)%nat -> (y < ysize img)%nat ->
        red (getpixel black out x y)
        = red (getpixel black img
                 (Z.to_nat ((Z.of_nat x + k) mod Z.of_nat (xsize img))) y)) /\
     (offset_in_range (k mod Z.of_nat (xsize img)) ->
      saved_images
        (log (snd (create_anaglyph input_path output_path
                     (k mod Z.of_nat (xsize img)) w)))
      = (saved_images (log w) ++ [(output_path, out)])%list)) /\
  (~ offset_in_range k ->
   create_anaglyph input_path output_path k w
   = (Raised (OverflowError (- k)),
      mkWorld (fs w)
        (log w ++ [Called input_path output_path k; Opened input_path])%list)).
Proof.
  intros Hload HW. split.
  - intros Hin.
    destruct (create_anaglyph_saves input_path output_path k w img Hload Hin)
      as (out & Hout & Hsaved).
    exists out. split; [exact Hsaved |]. split.
    + intros x y Hx Hy.
      now rewrite (anaglyph_of_pixel img k x y Hx Hy out Hout).
    + intros Hmod.
      destruct (create_anaglyph_saves input_path output_path
                  (k mod Z.of_nat (xsize img)) w img Hload Hmod)
        as (out' & Hout' & Hsaved').
      rewrite anaglyph_of_mod, Hout in Hout' by assumption.
      injection Hout' as <-. exact Hsaved'.
  - intros Hout.
    exact (create_anaglyph_overflow input_path output_path k w img Hload Hout).
Qed.

(** C2 as amended: when the image at [input_path] loads as the RGB
    image [img] and the offset is in the range -2147483647 ..
    2147483648, the image [create_anaglyph] saves has, at every pixel
    position, the green and the blue channel of [img].  With an offset
    outside the range the call ends in OverflowError and saves
    nothing. *)
Theorem green_and_blue_are_preserved
    (input_path output_path : string) (k : Z) (w : World) (img : Image) :
  load input_path (fs w) = inr img ->
  (offset_in_range k ->
   exists out,
     saved_images (log (snd (create_anaglyph input_path output_path k w)))
     = (saved_images (log w) ++ [(output_path, out)])%list /\
     forall x y, (x < xsize img)%nat -> (y < ysize img)%nat ->
       green (getpixel black out x y) = green (getpixel black img x y) /\
       blue (getpixel black out x y) = blue (getpixel black img x y)) /\
  (~ offset_in_range k ->
   create_anaglyph input_path output_path k w
   = (Raised (OverflowError (- k)),
      mkWorld (fs w)
        (log w ++ [Called input_path output_path k; Opened input_path])%list)).
Proof.
  intros Hload. split.
  - intros Hin.
    destruct (create_anaglyph_saves input_path output_path k w img Hload Hin)
      as (out & Hout & Hsaved).
    exists out. split; [exact Hsaved |].
    intros x y Hx Hy.
    now rewrite (anaglyph_of_pixel img k x y Hx Hy out Hout).
  - intros Hout.
    exact (create_anaglyph_overflow input_path output_path k w img Hload Hout).
Qed.

(** C3 as amended: when the image at [input_path] loads as [img] and
    the offset is in the range -2147483647 .. 2147483648, the image
    [create_anaglyph] saves has the width and the height of [img], and
    its rows have that shape.  With an offset outside the range the
    call ends in OverflowError and no image is produced. *)
Theorem output_has_input_dimensions
    (input_path output_path : string) (k : Z) (w : World) (img : Image) :
  load input_path (fs w) = inr img ->
  (offset_in_range k ->
   exists out,
     saved_images (log (snd (create_anaglyph input_path output_path k w)))
     = (saved_images (log w) ++ [(output_path, out)])%list /\
     xsize out = xsize img /\ ysize out = ysize img /\ well_shaped out) /\
  (~ offset_in_range k ->
   create_anaglyph input_path output_path k w
   = (Raised (OverflowError (- k)),
      mkWorld (fs w)
        (log w ++ [Called input_path output_path k; Opened input_path])%list)).
Proof.
  intros Hload. split.
  - intros Hin.
    destruct (create_anaglyph_saves input_path output_path k w img Hload Hin)
      as (out & Hout & Hsaved).
    exists out. split; [exact Hsaved |].
    exact (anaglyph_of_size img k out Hout).
  - intros Hout.
    exact (create_anaglyph_overflow input_path output_path k w img Hload Hout).
Qed.

(** C4: with offset 0 the image [create_anaglyph] saves is the loaded
    RGB image itself. *)
Theorem offset_zero_is_identity
    (input_path output_path : string) (w : World) (img : Image) :
  load input_path (fs w) = inr img ->
  well_shaped img ->
  saved_images (log (snd (create_anaglyph input_path output_path 0 w)))
  = (saved_images (log w) ++ [(output_path, img)])%list.
Proof.
  intros Hload Hshape.
  assert (Hzero : offset_in_range 0) by (unfold offset_in_range; lia).
  destruct (create_anaglyph_saves input_path output_path 0 w img Hload Hzero)
    as (out & Hout & Hsaved).
  rewrite Hsaved. do 3 f_equal.
  rewrite (anaglyph_of_merged img 0 Hzero) in Hout. injection Hout as <-.
  destruct img as [W H rows]. simpl in *. f_equal.
  transitivity (build W H (getpixel black (mkRaster W H rows)));
    [| exact (build_getpixel black (mkRaster W H rows) Hshape)].
  apply build_ext. intros x y Hx Hy. simpl.
  unfold ImagingOffset, getpixel at 1. simpl.
  rewrite getpixel_build by assumption.
  rewrite !source_index_zero by assumption.
  now destruct (getpixel black (mkRaster W H rows) x y).
Qed.

(** C5: when the image at [input_path] does not load, with cause [e],
    [create_anaglyph] returns [False] and raises nothing; it leaves the
    file system as it was, never calls [save], and prints one line with
    the path and the cause. *)
Theorem load_failure_is_reported
    (input_path output_path : string) (offset : Z) (w : World) (e : Err) :
  load input_path (fs w) = inl e ->
  create_anaglyph input_path output_path offset w
  = (Returned false,
     mkWorld (fs w)
       (log w ++ [Called input_path output_path offset;
                  Opened input_path;
                  Printed ("Error opening " ++ input_path ++ ": " ++ err_str e)])%list).
Proof.
  apply create_anaglyph_load_failed.
Qed.

End Converter.

(** ** The batch driver *)

Section Batch.

Context {P : Platform}.

Lemma process_directory_after_prepare input_dir output_dir offset
    (w w0 : World) names :
  prepare input_dir output_dir w = (Returned names, w0) ->
  process_directory input_dir output_dir offset w
  = sweep input_dir output_dir offset names w0.
Proof.
  intros Hprep. unfold process_directory, bind. now rewrite Hprep.
Qed.

Lemma prepare_not_exited input_dir output_dir (w : World) :
  match fst (prepare input_dir output_dir w) with
  | Exited _ => False
  | _ => True
  end.
Proof.
  unfold prepare. run.
  destruct (os_path_exists output_dir (fs w)); run.
  - destruct (os_listdir input_dir (fs w)); exact I.
  - destruct (os_makedirs output_dir (fs w)) as [[e |] files]; run;
      [exact I |].
    destruct (os_listdir input_dir files); exact I.
Qed.

(** What the lines before the loop add to the log, however they end. *)
Lemma prepare_log input_dir output_dir (w : World) :
  exists l,
    log (snd (prepare input_dir output_dir w)) = (log w ++ l)%list /\
    calls l = [] /\ saved_images l = [] /\ printed l = [] /\
    made_dirs l
    = (if os_path_exists output_dir (fs w) then [] else [output_dir]) /\
    match fst (prepare input_dir output_dir w) with
    | Returned _ => True
    | Raised (LibraryError _) => True
    | _ => False
    end.
Proof.
  unfold prepare. run.
  destruct (os_path_exists output_dir (fs w)); run.
  - exists [Tested output_dir; Listed input_dir].
    destruct (os_listdir input_dir (fs w)); simpl;
      rewrite <- app_assoc; now repeat split.
  - destruct (os_makedirs output_dir (fs w)) as [[e |] files]; run.
    + exists [Tested output_dir; MadeDirs output_dir].
      rewrite <- app_assoc. now repeat split.
    + exists [Tested output_dir; MadeDirs output_dir; Listed input_dir].
      destruct (os_listdir input_dir files); simpl;
        rewrite <- !app_assoc; now repeat split.
Qed.

Lemma process_directory_not_exited input_dir output_dir offset (w : World) :
  match fst (process_directory input_dir output_dir offset w) with
  | Exited _ => False
  | _ => True
  end.
Proof.
  assert (Hprep := prepare_not_exited input_dir output_dir w).
  unfold process_directory, bind.
  destruct (prepare input_dir output_dir w) as [[names | e | c] w0];
    simpl in *; try exact I; try contradiction.
  destruct (sweep_log input_dir output_dir offset names w0)
    as (r & w' & l & done & rest & -> & _ & _ & _ & _ & _ & Hend).
  destruct Hend as [(-> & _) | (-> & _)]; exact I.
Qed.


(** C8 as amended: the sweep never lists a directory, so no
    subdirectory is entered; a subdirectory is classified by its name
    like any entry: without an image extension it leaves a skip notice
    and reaches no converter, with one it is handed to the converter. *)
Theorem subdirectory_is_classified_by_name
    (input_dir output_dir : string) (offset : Z) (d : string) (w : World) :
  os_path_isdir (join input_dir d) (fs w) = true ->
  (forall names (w0 : World),
     listings (log (snd (sweep input_dir output_dir offset names w0)))
     = listings (log w0)) /\
  (has_image_extension d = false ->
     process_entry input_dir output_dir offset d w
     = (Returned tt,
        mkWorld (fs w)
          (log w ++ [Printed ("Skipping non-image file: " ++ d)])%list)) /\
  (has_image_extension d = true ->
     process_entry input_dir output_dir offset d w
     = (create_anaglyph (join input_dir d)
          (join output_dir (anaglyph_name d)) offset ;;
        ret tt) w /\
     calls (log (snd (process_entry input_dir output_dir offset d w)))
     = (calls (log w) ++ [planned input_dir output_dir offset d])%list).
Proof.
  intros _. split; [| split].
  - intros names w0.
    destruct (sweep_log input_dir output_dir offset names w0)
      as (r & w' & l & done & rest & -> & _ & Hlog & Hev & _).
    destruct (converter_events_projections l Hev) as [_ Hlist].
    simpl. now rewrite Hlog, listings_app, Hlist, app_nil_r.
  - intros Hext. now rewrite process_entry_by_extension, Hext.
  - intros Hext. split.
    + now rewrite process_entry_by_extension, Hext.
    + destruct (process_entry_log input_dir output_dir offset d w)
        as (r & w' & l & -> & Hlog & _ & Hcalls & _).
      simpl. now rewrite Hlog, calls_app, Hcalls, Hext.
Qed.


End Batch.

(** ** The command line *)

Section CommandLine.

Context {P : Platform}.



(** C10: when a third argument is present and [int] rejects it, the
    run ends in a ValueError on that argument; nothing has been
    printed, tested, listed, opened or saved. *)
Theorem invalid_offset_raises_value_error (argv : list string) (w : World) :
  (3 < List.length argv)%nat ->
  int (nth 3 argv "") = None ->
  main argv w = (Raised (ValueError (nth 3 argv "")), w).
Proof.
  intros Hlen Hint. unfold main.
  destruct (Nat.ltb_spec (List.length argv) 3) as [Hshort | _]; [lia |].
  destruct (Nat.ltb_spec 3 (List.length argv)) as [_ | Hno]; [| lia].
  rewrite Hint. reflexivity.
Qed.

End CommandLine.

(** ** The theorems at work on the sample platform *)

Lemma red_channel_is_circular_shift_witness :
  load (P := sample) "photo.jpg" (fs start) = inr photo /\
  (0 < xsize photo)%nat /\
  offset_in_range 7 /\
  offset_in_range (7 mod Z.of_nat (xsize photo)) /\
  exists out,
    saved_images
      (log (snd (create_anaglyph (P := sample) "photo.jpg" "o.jpg" 7 start)))
    = (saved_images (log start) ++ [("o.jpg", out)])%list /\
    (forall x y, (x < xsize photo)%nat -> (y < ysize photo)%nat ->
       red (getpixel black out x y)
       = red (getpixel black photo
                (Z.to_nat ((Z.of_nat x + 7) mod Z.of_nat (xsize photo))) y)) /\
    saved_images
      (log (snd (create_anaglyph (P := sample) "photo.jpg" "o.jpg"
                   (7 mod Z.of_nat (xsize photo)) start)))
    = (saved_images (log start) ++ [("o.jpg", out)])%list.
Proof.
  assert (H7 : offset_in_range 7) by (unfold offset_in_range; lia).
  assert (H1 : offset_in_range (7 mod Z.of_nat (xsize photo)))
    by (change (7 mod Z.of_nat (xsize photo)) with 1;
        unfold offset_in_range; lia).
  split; [reflexivity |]. split; [simpl; lia |].
  split; [exact H7 |]. split; [exact H1 |].
  destruct (proj1 (red_channel_is_circular_shift (P := sample)
                     "photo.jpg" "o.jpg" 7 start photo eq_refl
                     (Nat.lt_0_succ 2)) H7)
    as (out & Hsaved & Hred & Hmod).
  exists out. split; [exact Hsaved |]. split; [exact Hred | exact (Hmod H1)].
Defined.

(** C1 as stated fails: one past the range nothing is saved, though
    the offset modulo the width is 0. *)
Lemma offset_past_range_shifts_nothing :
  load (P := sample) "photo.jpg" (fs start) = inr photo /\
  (0 < xsize photo)%nat /\
  2147483649 mod Z.of_nat (xsize photo) = 0 /\
  create_anaglyph (P := sample) "photo.jpg" "o.jpg" 2147483649 start
  = (Raised (OverflowError (-2147483649)),
     mkWorld (P := sample) disk
       [Called "photo.jpg" "o.jpg" 2147483649; Opened "photo.jpg"]) /\
  ~ red_plane_shifted (P := sample) "photo.jpg" "o.jpg" 2147483649 start photo.
Proof.
  split; [reflexivity |]. split; [simpl; lia |]. split; [reflexivity |].
  split; [reflexivity |].
  intros (out & Hsaved & _). vm_compute in Hsaved. discriminate Hsaved.
Qed.

Lemma green_and_blue_are_preserved_witness :
  load (P := sample) "photo.jpg" (fs start) = inr photo /\
  offset_in_range (-4) /\
  exists out,
    saved_images
      (log (snd (create_anaglyph (P := sample) "photo.jpg" "o.jpg" (-4) start)))
    = (saved_images (log start) ++ [("o.jpg", out)])%list /\
    forall x y, (x < xsize photo)%nat -> (y < ysize photo)%nat ->
      green (getpixel black out x y) = green (getpixel black photo x y) /\
      blue (getpixel black out x y) = blue (getpixel black photo x y).
Proof.
  assert (Hin : offset_in_range (-4)) by (unfold offset_in_range; lia).
  split; [reflexivity |]. split; [exact Hin |].
  exact (proj1 (green_and_blue_are_preserved (P := sample)
                  "photo.jpg" "o.jpg" (-4) start photo eq_refl) Hin).
Defined.

(** C2 as stated fails: below the range there is no output image to
    have the green and blue planes. *)
Lemma offset_below_range_keeps_no_plane :
  load (P := sample) "photo.jpg" (fs start) = inr photo /\
  create_anaglyph (P := sample) "photo.jpg" "o.jpg" (-2147483648) start
  = (Raised (OverflowError 2147483648),
     mkWorld (P := sample) disk
       [Called "photo.jpg" "o.jpg" (-2147483648); Opened "photo.jpg"]) /\
  ~ cyan_planes_kept (P := sample) "photo.jpg" "o.jpg" (-2147483648) start photo.
Proof.
  split; [reflexivity |]. split; [reflexivity |].
  intros (out & Hsaved & _). vm_compute in Hsaved. discriminate Hsaved.
Qed.

Lemma output_has_input_dimensions_witness :
  load (P := sample) "photo.jpg" (fs start) = inr photo /\
  offset_in_range 10 /\
  exists out,
    saved_images
      (log (snd (create_anaglyph (P := sample) "photo.jpg" "o.jpg" 10 start)))
    = (saved_images (log start) ++ [("o.jpg", out)])%list /\
    xsize out = 3%nat /\ ysize out = 2%nat /\ well_shaped out.
Proof.
  assert (Hin : offset_in_range 10) by (unfold offset_in_range; lia).
  split; [reflexivity |]. split; [exact Hin |].
  exact (proj1 (output_has_input_dimensions (P := sample)
                  "photo.jpg" "o.jpg" 10 start photo eq_refl) Hin).
Defined.

(** C3 as stated fails: with an offset of forty binary digits no output
    image is produced. *)
Lemma huge_offset_produces_no_image :
  load (P := sample) "photo.jpg" (fs start) = inr photo /\
  create_anaglyph (P := sample) "photo.jpg" "o.jpg" 1099511627776 start
  = (Raised (OverflowError (-1099511627776)),
     mkWorld (P := sample) disk
       [Called "photo.jpg" "o.jpg" 1099511627776; Opened "photo.jpg"]) /\
  ~ dimensions_kept (P := sample) "photo.jpg" "o.jpg" 1099511627776 start photo.
Proof.
  split; [reflexivity |]. split; [reflexivity |].
  intros (out & Hsaved & _). vm_compute in Hsaved. discriminate Hsaved.
Qed.

Lemma offset_zero_is_identity_witness :
  load (P := sample) "photo.jpg" (fs start) = inr photo /\
  well_shaped photo /\
  saved_images
    (log (snd (create_anaglyph (P := sample) "photo.jpg" "o.jpg" 0 start)))
  = [("o.jpg", photo)].
Proof.
  assert (Hshape : well_shaped photo)
    by (split; [reflexivity | repeat constructor]).
  split; [reflexivity |]. split; [exact Hshape |].
  apply (offset_zero_is_identity (P := sample)
           "photo.jpg" "o.jpg" start photo); [reflexivity | exact Hshape].
Defined.

Lemma load_failure_is_reported_witness :
  load (P := sample) "missing.jpg" (fs start)
  = inl "No such file or directory" /\
  create_anaglyph (P := sample) "missing.jpg" "out.jpg" 10 start
  = (Returned false,
     mkWorld (P := sample) disk
       [Called "missing.jpg" "out.jpg" 10;
        Opened "missing.jpg";
        Printed "Error opening missing.jpg: No such file or directory"]).
Proof.
  split; [reflexivity |].
  apply (load_failure_is_reported (P := sample)
           "missing.jpg" "out.jpg" 10 start "No such file or directory").
  reflexivity.
Defined.




(** C8 as stated fails: the subdirectory [album.png] is handed to the
    converter. *)
Lemma subdirectory_reaches_converter :
  ~ subdirectories_never_converted (P := sample) "in" "out" 10 start_with_folders.
Proof.
  intros Hnever.
  apply (Hnever ["album.png"; "old"; "photo.JPG"] "album.png"
           eq_refl (or_introl eq_refl) eq_refl "out/album_anaglyph.png" 10).
  cbv. auto 10.
Qed.

Lemma subdirectory_is_classified_by_name_witness :
  sample_isdir "in/album.png" disk_with_folders = true /\
  has_image_extension "album.png" = true /\
  calls (log (snd (process_entry (P := sample) "in" "out" 10 "album.png"
                     start_with_folders)))
  = [("in/album.png", "out/album_anaglyph.png", 10)].
Proof.
  destruct (subdirectory_is_classified_by_name (P := sample)
              "in" "out" 10 "album.png" start_with_folders eq_refl)
    as (_ & _ & Hconv).
  split; [reflexivity |]. split; [reflexivity |].
  exact (proj2 (Hconv eq_refl)).
Defined.



(** The offset is read before the paths are looked at: the mismatch of
    a directory and a file is not reached. *)
Lemma invalid_offset_raises_value_error_witness :
  (3 < List.length ["create_anaglyph.py"; "in"; "photo.jpg"; "abc"])%nat /\
  int "abc" = None /\
  main (P := sample) ["create_anaglyph.py"; "in"; "photo.jpg"; "abc"] start
  = (Raised (ValueError "abc"), start).
Proof.
  split; [simpl; lia |]. split; [reflexivity |].
  apply (invalid_offset_raises_value_error (P := sample)
           ["create_anaglyph.py"; "in"; "photo.jpg"; "abc"] start);
    [simpl; lia | reflexivity].
Defined.

(** ** More on the channel arithmetic *)

(** X1: converting the image that a conversion with offset j produced,
    with offset k, gives the image that one conversion with offset
    j + k produces, whenever k and j + k are in the range of offsets
    the library takes: the red shifts add up, green and blue stay. *)
Theorem conversions_add_their_offsets (img out : Image) (j k : Z) :
  anaglyph_of img j = inr out ->
  offset_in_range k ->
  offset_in_range (j + k) ->
  anaglyph_of out k = anaglyph_of img (j + k).
Proof.
  exact (anaglyph_of_twice img out j k).
Qed.

(** X2: a conversion is undone by the conversion with the opposite
    offset, when that offset is in range too: from the anaglyph of a
    well shaped image, offset -k gives the image back, pixel for
    pixel. *)
Theorem opposite_offset_restores_image (img out : Image) (k : Z) :
  well_shaped img ->
  anaglyph_of img k = inr out ->
  offset_in_range (- k) ->
  anaglyph_of out (- k) = inr img.
Proof.
  intros Hshape Hout Hback.
  rewrite (anaglyph_of_twice img out k (- k) Hout Hback)
    by (replace (k + - k) with 0 by lia; unfold offset_in_range; lia).
  replace (k + - k) with 0 by lia.
  exact (anaglyph_of_zero img Hshape).
Qed.

(** X3: an offset in range that is a multiple of the width changes
    nothing: the image built from a well shaped image is the image
    itself.  For an image one pixel wide this is every offset in
    range. *)
Theorem multiple_of_width_is_identity (img : Image) (k : Z) :
  well_shaped img ->
  offset_in_range k ->
  k mod Z.of_nat (xsize img) = 0 ->
  anaglyph_of img k = inr img.
Proof.
  intros Hshape Hin Hk.
  destruct (xsize img) as [| W'] eqn:HW.
  - simpl in Hk. rewrite Z.mod_0_r in Hk. subst k.
    exact (anaglyph_of_zero img Hshape).
  - assert (Hzero : offset_in_range 0) by (unfold offset_in_range; lia).
    rewrite <- (anaglyph_of_mod img k); rewrite ?HW, ?Hk;
      try assumption; try lia.
    exact (anaglyph_of_zero img Hshape).
Qed.

(** X4: when every pixel of the input has its three channels between 0
    and 255, so has every pixel of the image built from it. *)
Theorem channels_stay_eight_bit (img out : Image) (k : Z) :
  (forall x y, (x < xsize img)%nat -> (y < ysize img)%nat ->
     eight_bit (getpixel black img x y)) ->
  anaglyph_of img k = inr out ->
  forall x y, (x < xsize out)%nat -> (y < ysize out)%nat ->
    eight_bit (getpixel black out x y).
Proof.
  intros Hin Hout x y Hx Hy.
  destruct (anaglyph_of_size img k out Hout) as (HW & HH & _).
  rewrite HW in Hx. rewrite HH in Hy.
  rewrite (anaglyph_of_pixel img k x y Hx Hy out Hout).
  assert (Hx' := shifted_column_in_range x k (xsize img) Hx).
  destruct (Hin _ y Hx' Hy) as (Hr & _ & _).
  destruct (Hin x y Hx Hy) as (_ & Hg & Hb).
  unfold eight_bit. simpl. repeat split; lia.
Qed.

(** ** More on the converter and the batch driver *)

Section Traces.

Context {P : Platform}.

(** X5: how [create_anaglyph] can end.  It returns [True] exactly when
    the image loads, the offset is taken and the save raises nothing;
    it raises exactly when the image loads and the offset is outside
    the range, and then the exception is the OverflowError of line 46;
    it never exits. *)
Theorem converter_returns_true_iff
    (input_path output_path : string) (offset : Z) (w : World) :
  (fst (create_anaglyph input_path output_path offset w) = Returned true <->
   exists img out,
     load input_path (fs w) = inr img /\
     anaglyph_of img offset = inr out /\
     fst (Image_save out output_path (fs w)) = None) /\
  (forall e,
     fst (create_anaglyph input_path output_path offset w) = Raised e <->
     (exists img, load input_path (fs w) = inr img) /\
     ~ offset_in_range offset /\
     e = OverflowError (- offset)) /\
  (forall c,
     fst (create_anaglyph input_path output_path offset w) <> Exited c).
Proof.
  destruct (load input_path (fs w)) as [e0 | img] eqn:Hload.
  - rewrite (create_anaglyph_load_failed _ _ _ _ _ Hload). simpl.
    split; [| split].
    + split; [discriminate |]. intros (img & out & Himg & _). discriminate.
    + intros e. split; [discriminate |].
      intros ((img & Himg) & _). discriminate.
    + discriminate.
  - destruct (offset_in_range_dec offset) as [Hin | Hout].
    + unfold create_anaglyph. run.
      rewrite Hload, (anaglyph_of_merged img offset Hin). run.
      destruct (Image_save _ output_path (fs w)) as [[e1 |] files] eqn:Hsave;
        run; (split; [| split]); try discriminate.
      * split; [discriminate |].
        intros (img' & out & Himg & Hbuilt & Hnone).
        injection Himg as <-.
        rewrite (anaglyph_of_merged img offset Hin) in Hbuilt.
        injection Hbuilt as <-. rewrite Hsave in Hnone. discriminate.
      * intros e. split; [discriminate |]. intros (_ & Hno & _). contradiction.
      * split; [| reflexivity]. intros _.
        exists img. eexists. split; [reflexivity |].
        split; [apply anaglyph_of_merged; exact Hin |]. now rewrite Hsave.
      * intros e. split; [discriminate |]. intros (_ & Hno & _). contradiction.
    + rewrite (create_anaglyph_overflow _ _ _ _ _ Hload Hout). simpl.
      split; [| split].
      * split; [discriminate |].
        intros (img' & out & _ & Hbuilt & _).
        apply anaglyph_of_in_range in Hbuilt. contradiction.
      * intros e. split.
        -- intros He. injection He as <-.
           split; [now exists img |]. now split.
        -- intros (_ & _ & ->). reflexivity.
      * discriminate.
Qed.

(** X6: when the image loads and the save raises [e], [create_anaglyph]
    returns [False] after one line with the output path and the cause;
    the file system is left as the failed save left it. *)
Theorem save_failure_is_reported
    (input_path output_path : string) (offset : Z) (w : World)
    (img out : Image) (e : Err) (files : FS) :
  load input_path (fs w) = inr img ->
  anaglyph_of img offset = inr out ->
  Image_save out output_path (fs w) = (Some e, files) ->
  create_anaglyph input_path output_path offset w
  = (Returned false,
     mkWorld files
       (log w ++ [Called input_path output_path offset;
                  Opened input_path;
                  Saved output_path out;
                  Printed ("Error saving " ++ output_path ++ ": " ++ err_str e)])%list).
Proof.
  intros Hload Hout Hsave. unfold create_anaglyph. run.
  rewrite Hload, Hout. run. rewrite Hsave. run.
  now rewrite <- !app_assoc.
Qed.

(** X7: a [process_directory] that returns has printed one line for
    every entry of the listing, converted, failed or skipped, and no
    other line. *)
Theorem one_line_per_entry
    (input_dir output_dir : string) (offset : Z) (w w0 : World) names :
  prepare input_dir output_dir w = (Returned names, w0) ->
  fst (process_directory input_dir output_dir offset w) = Returned tt ->
  List.length (printed (log (snd (process_directory input_dir output_dir offset w))))
  = (List.length (printed (log w)) + List.length names)%nat.
Proof.
  intros Hprep.
  rewrite (process_directory_after_prepare _ _ _ _ _ _ Hprep).
  destruct (prepare_log input_dir output_dir w) as (l0 & Hlog0 & _ & _ & Hp0 & _).
  rewrite Hprep in Hlog0. simpl in Hlog0.
  destruct (sweep_log input_dir output_dir offset names w0)
    as (r & w' & l & done & rest & -> & _ & Hlog & _ & _ & _ & Hend).
  simpl. intros Hret.
  destruct Hend as [(_ & _ & Hlen & _) | (-> & _)]; [| discriminate].
  rewrite Hlog, Hlog0, !printed_app, Hp0, app_nil_r, length_app.
  now rewrite Hlen.
Qed.

(** X8: every file [process_directory] saves lies in the output
    directory under the name, with [_anaglyph] before the extension, of
    an entry of the listing that has an image extension. *)
Theorem saved_files_are_planned_outputs
    (input_dir output_dir : string) (offset : Z) (w w0 : World) names :
  prepare input_dir output_dir w = (Returned names, w0) ->
  exists l,
    saved_images (log (snd (process_directory input_dir output_dir offset w)))
    = (saved_images (log w) ++ l)%list /\
    Forall (fun saved =>
              exists filename,
                In filename names /\
                has_image_extension filename = true /\
                fst saved = join output_dir (anaglyph_name filename)) l.
Proof.
  intros Hprep.
  rewrite (process_directory_after_prepare _ _ _ _ _ _ Hprep).
  destruct (prepare_log input_dir output_dir w) as (l0 & Hlog0 & _ & Hs0 & _).
  rewrite Hprep in Hlog0. simpl in Hlog0.
  destruct (sweep_log input_dir output_dir offset names w0)
    as (r & w' & l & done & rest & -> & _ & Hlog & _ & _ & Hsaved & _).
  exists (saved_images l). split; [| exact Hsaved].
  simpl. rewrite Hlog, Hlog0, !saved_images_app, Hs0, app_nil_r. reflexivity.
Qed.

(** X9: when [process_directory] raises, either the exception comes
    from [os.makedirs] or [os.listdir], and then no entry has been
    handed to the converter and nothing was saved or printed, or it is
    the OverflowError of an offset outside the range, raised by the
    converter. *)
Theorem batch_raises_before_any_conversion
    (input_dir output_dir : string) (offset : Z) (w w' : World) (e : Exception) :
  process_directory input_dir output_dir offset w = (Raised e, w') ->
  ((exists cause, e = LibraryError cause) /\
   calls (log w') = calls (log w) /\
   saved_images (log w') = saved_images (log w) /\
   printed (log w') = printed (log w)) \/
  (e = OverflowError (- offset) /\ ~ offset_in_range offset).
Proof.
  intros Hrun.
  destruct (prepare_log input_dir output_dir w)
    as (l0 & Hlog0 & Hc0 & Hs0 & Hp0 & _ & Hkind).
  unfold process_directory, bind in Hrun.
  destruct (prepare input_dir output_dir w) as [[names | e0 | c] w0];
    simpl in *.
  - destruct (sweep_log input_dir output_dir offset names w0)
      as (r & w1 & l & done & rest & Hsweep & _ & _ & _ & _ & _ & Hend).
    rewrite Hsweep in Hrun.
    destruct Hend as [(-> & _) | (-> & Hout)]; [discriminate |].
    injection Hrun as <- <-. right. now split.
  - injection Hrun as <- <-. left.
    split; [destruct e0 as [about | value | cause];
            [contradiction | contradiction | now exists cause] |].
    rewrite Hlog0, calls_app, saved_images_app, printed_app, Hc0, Hs0, Hp0.
    now rewrite !app_nil_r.
  - discriminate.
Qed.

Lemma process_directory_made_dirs
    (input_dir output_dir : string) (offset : Z) (w : World) :
  made_dirs (log (snd (process_directory input_dir output_dir offset w)))
  = (made_dirs (log w) ++
     if os_path_exists output_dir (fs w) then [] else [output_dir])%list.
Proof.
  destruct (prepare_log input_dir output_dir w)
    as (l0 & Hlog0 & _ & _ & _ & Hm0 & _).
  unfold process_directory, bind.
  destruct (prepare input_dir output_dir w) as [[names | e0 | c] w0];
    simpl in *.
  - destruct (sweep_log input_dir output_dir offset names w0)
      as (r & w1 & l & done & rest & -> & _ & Hlog & Hev & _).
    destruct (converter_events_projections l Hev) as [Hm _].
    simpl. rewrite Hlog, Hlog0, !made_dirs_app, Hm, Hm0.
    now rewrite app_nil_r.
  - now rewrite Hlog0, made_dirs_app, Hm0.
  - now rewrite Hlog0, made_dirs_app, Hm0.
Qed.

(** X10: [process_directory] calls [os.makedirs] once, on the output
    directory, when [os.path.exists] denies it, and never otherwise;
    the sweep creates no directory. *)
Theorem output_directory_made_when_absent
    (input_dir output_dir : string) (offset : Z) (w : World) :
  made_dirs (log (snd (process_directory input_dir output_dir offset w)))
  = (made_dirs (log w) ++
     if os_path_exists output_dir (fs w) then [] else [output_dir])%list.
Proof.
  apply process_directory_made_dirs.
Qed.

(** X15: from the command line no directory is ever made: the script
    refuses an output path that is not a directory before
    [process_directory] could create it.  The file system is assumed to
    answer [exists] wherever it answers [isdir]. *)
Theorem command_line_makes_no_directory (argv : list string) (w : World) :
  (forall path, os_path_isdir path (fs w) = true ->
                os_path_exists path (fs w) = true) ->
  made_dirs (log (snd (main argv w))) = made_dirs (log w).
Proof.
  intros Hlaw. unfold main.
  destruct (List.length argv <? 3)%nat.
  { run. now rewrite made_dirs_app, app_nil_r. }
  assert (Hdispatch : forall n : Z,
    made_dirs (log (snd (
      (input_is_dir <- isdir (nth 1 argv "") ;;
       if input_is_dir then
         output_is_dir <- isdir (nth 2 argv "") ;;
         if negb output_is_dir then print mismatch ;; sys_exit 1
         else process_directory (nth 1 argv "") (nth 2 argv "") n
       else create_anaglyph (nth 1 argv "") (nth 2 argv "") n ;; ret tt) w)))
    = made_dirs (log w)).
  { intros n. run.
    destruct (os_path_isdir (nth 1 argv "") (fs w)) eqn:Hin; run.
    - destruct (os_path_isdir (nth 2 argv "") (fs w)) eqn:Hout; run.
      + rewrite process_directory_made_dirs. simpl.
        rewrite (Hlaw _ Hout), !made_dirs_app. simpl. now rewrite !app_nil_r.
      + rewrite !made_dirs_app. simpl. now rewrite !app_nil_r.
    - destruct (create_anaglyph_log (nth 1 argv "") (nth 2 argv "") n
                  (mkWorld (fs w) (log w ++ [Tested (nth 1 argv "")])%list))
        as (r & w1 & l & -> & Hlog & Hev & _ & _ & Hend).
      destruct (converter_events_projections l Hev) as [Hm _].
      destruct Hend as [(ok & line & -> & _) | (-> & _)];
        simpl in *; rewrite Hlog, !made_dirs_app, Hm; simpl;
        now rewrite !app_nil_r. }
  destruct (3 <? List.length argv)%nat.
  - destruct (int (nth 3 argv "")) as [n |]; [exact (Hdispatch n) | reflexivity].
  - exact (Hdispatch 10).
Qed.

End Traces.

(** ** More on the command line *)

Section Arguments.

Context {P : Platform}.

(** X11: a run depends on its arguments only through the two paths
    and the integer the offset stands for: the program name, the
    spelling of the offset and the arguments after it do not matter,
    and leaving the offset out is the same as giving one that reads
    10. *)
Theorem run_depends_on_paths_and_offset_value
    (prog prog' input_path output_path s s' : string)
    (rest rest' : list string) (n : Z) (w : World) :
  int s = Some n ->
  int s' = Some n ->
  main (prog :: input_path :: output_path :: s :: rest) w
  = main (prog' :: input_path :: output_path :: s' :: rest') w /\
  (n = 10 ->
   main [prog; input_path; output_path] w
   = main (prog' :: input_path :: output_path :: s' :: rest') w).
Proof.
  intros Hs Hs'. unfold main. simpl. rewrite Hs, Hs'.
  split; [reflexivity |]. intros ->. reflexivity.
Qed.

(** X12: a run that ends in [sys.exit] ends with code 1, right after a
    printed line, and has touched nothing: the file system is as it
    was, no directory was made or listed, no entry converted, no image
    saved. *)
Theorem refused_run_touches_nothing (argv : list string) (w w' : World) (c : Z) :
  main argv w = (Exited c, w') ->
  c = 1 /\
  fs w' = fs w /\
  ((exists l, log w' = (log w ++ l ++ [Printed usage])%list /\
              calls l = [] /\ saved_images l = [] /\
              made_dirs l = [] /\ listings l = [] /\ printed l = []) \/
   (exists l, log w' = (log w ++ l ++ [Printed mismatch])%list /\
              calls l = [] /\ saved_images l = [] /\
              made_dirs l = [] /\ listings l = [] /\ printed l = [])).
Proof.
  unfold main.
  destruct (Nat.ltb_spec (List.length argv) 3) as [Hshort | Hlong].
  { run. intros Hrun. injection Hrun as <- <-. simpl.
    split; [reflexivity |]. split; [reflexivity |].
    left. exists []. now repeat split. }
  assert (Hdispatch : forall n : Z,
    (input_is_dir <- isdir (nth 1 argv "") ;;
     if input_is_dir then
       output_is_dir <- isdir (nth 2 argv "") ;;
       if negb output_is_dir then print mismatch ;; sys_exit 1
       else process_directory (nth 1 argv "") (nth 2 argv "") n
     else create_anaglyph (nth 1 argv "") (nth 2 argv "") n ;; ret tt) w
    = (Exited c, w') ->
    c = 1 /\ fs w' = fs w /\
    exists l, log w' = (log w ++ l ++ [Printed mismatch])%list /\
              calls l = [] /\ saved_images l = [] /\
              made_dirs l = [] /\ listings l = [] /\ printed l = []).
  { intros n. run.
    destruct (os_path_isdir (nth 1 argv "") (fs w)); run.
    - destruct (os_path_isdir (nth 2 argv "") (fs w)); run.
      + assert (Hne := process_directory_not_exited
                  (nth 1 argv "") (nth 2 argv "") n
                  (mkWorld (fs w)
                     ((log w ++ [Tested (nth 1 argv "")]) ++
                      [Tested (nth 2 argv "")])%list)).
        destruct (process_directory _ _ _ _) as [[[] | e | c0] w1];
          simpl in *; try discriminate. contradiction.
      + intros Hrun. injection Hrun as <- <-. simpl.
        split; [reflexivity |]. split; [reflexivity |].
        exists [Tested (nth 1 argv ""); Tested (nth 2 argv "")].
        rewrite <- !app_assoc. now repeat split.
    - destruct (create_anaglyph_log (nth 1 argv "") (nth 2 argv "") n
                  (mkWorld (fs w) (log w ++ [Tested (nth 1 argv "")])%list))
        as (r & w1 & l & -> & _ & _ & _ & _ & Hend).
      destruct Hend as [(ok & line & -> & _) | (-> & _)]; discriminate. }
  intros Hrun.
  assert (Hgoal : c = 1 /\ fs w' = fs w /\
    exists l, log w' = (log w ++ l ++ [Printed mismatch])%list /\
              calls l = [] /\ saved_images l = [] /\
              made_dirs l = [] /\ listings l = [] /\ printed l = []).
  { destruct (3 <? List.length argv)%nat.
    - destruct (int (nth 3 argv "")) as [n |].
      + exact (Hdispatch n Hrun).
      + discriminate.
    - exact (Hdispatch 10 Hrun). }
  destruct Hgoal as (Hc & Hfs & Hlog).
  split; [exact Hc |]. split; [exact Hfs |]. right. exact Hlog.
Qed.

End Arguments.

(** ** More on the names of the outputs *)

Lemma length_append (s1 s2 : string) :
  String.length (s1 ++ s2) = (String.length s1 + String.length s2)%nat.
Proof.
  induction s1 as [| a s1 IH]; simpl; [reflexivity | now rewrite IH].
Qed.

Lemma append_assoc (s1 s2 s3 : string) :
  (s1 ++ s2) ++ s3 = s1 ++ (s2 ++ s3).
Proof.
  induction s1 as [| a s1 IH]; simpl; [reflexivity | now rewrite IH].
Qed.

Lemma rfind_from_shift (c : ascii) (s : string) :
  forall i, 0 <= i ->
    rfind_from c s i
    = if 0 <=? rfind_from c s 0 then i + rfind_from c s 0 else -1.
Proof.
  induction s as [| a s IH]; intros i Hi; simpl.
  - reflexivity.
  - rewrite (IH (i + 1)) by lia. rewrite (IH 1) by lia.
    destruct (Z.leb_spec 0 (rfind_from c s 0)) as [Hq | Hq].
    + destruct (Z.leb_spec 0 (i + 1 + rfind_from c s 0)); [| lia].
      destruct (Z.leb_spec 0 (1 + rfind_from c s 0)); [| lia].
      destruct (Z.leb_spec 0 (1 + rfind_from c s 0)); lia.
    + simpl. destruct (Ascii.eqb a c); simpl; lia.
Qed.

Lemma rfind_cons (c a : ascii) (s : string) :
  rfind c (String a s)
  = if 0 <=? rfind c s then 1 + rfind c s
    else if Ascii.eqb a c then 0 else -1.
Proof.
  unfold rfind. simpl. rewrite (rfind_from_shift c s 1) by lia.
  destruct (Z.leb_spec 0 (rfind_from c s 0)) as [Hq | Hq].
  - destruct (Z.leb_spec 0 (1 + rfind_from c s 0)); [reflexivity | lia].
  - reflexivity.
Qed.

Lemma rfind_bounds (c : ascii) (s : string) :
  -1 <= rfind c s < Z.of_nat (String.length s).
Proof.
  induction s as [| a s IH].
  - unfold rfind. simpl. lia.
  - rewrite rfind_cons. cbn [String.length].
    destruct (Z.leb_spec 0 (rfind c s)); [lia |].
    destruct (Ascii.eqb a c); lia.
Qed.

Lemma rfind_app (c : ascii) (s1 s2 : string) :
  rfind c (s1 ++ s2)
  = if 0 <=? rfind c s2 then Z.of_nat (String.length s1) + rfind c s2
    else rfind c s1.
Proof.
  assert (Hb2 := rfind_bounds c s2).
  induction s1 as [| a s1 IH].
  - simpl. destruct (Z.leb_spec 0 (rfind c s2)); [reflexivity |].
    unfold rfind at 2. simpl. lia.
  - cbn [append String.length]. rewrite !rfind_cons, IH.
    assert (Hb1 := rfind_bounds c s1).
    destruct (Z.leb_spec 0 (rfind c s2)).
    + destruct (Z.leb_spec 0 (Z.of_nat (String.length s1) + rfind c s2)); lia.
    + reflexivity.
Qed.

Lemma length_take (s : string) :
  forall n, (n <= String.length s)%nat -> String.length (take n s) = n.
Proof.
  induction s as [| a s IH]; intros [| n] Hn; simpl in *; try lia.
  rewrite IH; lia.
Qed.

Lemma take_app_exact (s1 s2 : string) :
  take (String.length s1) (s1 ++ s2) = s1.
Proof.
  induction s1 as [| a s1 IH]; simpl.
  - now destruct s2.
  - now rewrite IH.
Qed.

Lemma drop_app_exact (s1 s2 : string) :
  drop (String.length s1) (s1 ++ s2) = s2.
Proof.
  induction s1 as [| a s1 IH]; simpl; [now destruct s2 | exact IH].
Qed.

Lemma get_app_exact (s1 : string) (a : ascii) (s2 : string) :
  String.get (String.length s1) (s1 ++ String a s2) = Some a.
Proof.
  induction s1 as [| b s1 IH]; simpl; [reflexivity | exact IH].
Qed.

Lemma name_before_dot_found (p : string) (j : nat) :
  String.eqb (slice1 p j) "." = false ->
  forall n i, (i <= j < i + n)%nat -> name_before_dot p i n = true.
Proof.
  intros Hj. induction n as [| n IH]; intros i Hi; simpl; [lia |].
  destruct (Nat.eq_dec i j) as [-> | Hne].
  - now rewrite Hj.
  - destruct (negb _); [reflexivity |]. apply IH. lia.
Qed.

Lemma splitext_cases (p : string) :
  splitext p = (p, "") \/
  (rfind "/" p < rfind "." p /\
   splitext p = (take (Z.to_nat (rfind "." p)) p,
                 drop (Z.to_nat (rfind "." p)) p)).
Proof.
  unfold splitext.
  destruct (Z.ltb_spec (rfind "/" p) (rfind "." p)); simpl; [| now left].
  destruct (name_before_dot _ _ _); [right; now split | now left].
Qed.

(** The name of the output splits where the name of the input does. *)
Lemma splitext_anaglyph_name (filename : string) :
  extension filename <> "" ->
  splitext (anaglyph_name filename)
  = (stem filename ++ "_anaglyph", extension filename).
Proof.
  unfold anaglyph_name, stem, extension.
  destruct (splitext_cases filename) as [Hno | [Hlt Hyes]];
    [rewrite Hno; intros Hne; now contradiction Hne |].
  rewrite Hyes. cbn [fst snd]. intros _.
  set (sp := rfind "/" filename) in *. set (d := rfind "." filename) in *.
  assert (Hsp := rfind_bounds "/" filename). fold sp in Hsp.
  assert (Hd := rfind_bounds "." filename). fold d in Hd.
  set (base := take (Z.to_nat d) filename).
  set (ext := drop (Z.to_nat d) filename).
  assert (Hlen : String.length base = Z.to_nat d)
    by (apply length_take; lia).
  assert (Hsplit : filename = base ++ ext)
    by (symmetry; apply take_drop).
  assert (Hbase_dot := rfind_bounds "." base).
  assert (Hbase_sep := rfind_bounds "/" base).
  assert (Hext_dot := rfind_bounds "." ext).
  assert (Hext_sep := rfind_bounds "/" ext).
  assert (Hdot : rfind "." ext = 0).
  { assert (H := rfind_app "." base ext). rewrite <- Hsplit in H. fold d in H.
    destruct (Z.leb_spec 0 (rfind "." ext)); lia. }
  assert (Hsep : rfind "/" ext = -1 /\ rfind "/" base = sp).
  { assert (H := rfind_app "/" base ext). rewrite <- Hsplit in H. fold sp in H.
    destruct (Z.leb_spec 0 (rfind "/" ext)); lia. }
  destruct Hsep as [Hsep Hsepb].
  set (p := base ++ "_anaglyph" ++ ext).
  assert (Hpdot : rfind "." p = d + 9).
  { unfold p. rewrite rfind_app, (rfind_app "." "_anaglyph" ext), Hdot.
    simpl. lia. }
  assert (Hpsep : rfind "/" p = sp).
  { unfold p. rewrite rfind_app, (rfind_app "/" "_anaglyph" ext), Hsep.
    simpl. exact Hsepb. }
  unfold splitext. fold p. rewrite Hpdot, Hpsep.
  assert (Hfound :
    name_before_dot p (Z.to_nat (sp + 1)) (Z.to_nat (d + 9 - (sp + 1))) = true).
  { apply (name_before_dot_found p (String.length base)).
    - unfold slice1, p. change ("_anaglyph" ++ ext) with (String "_" ("anaglyph" ++ ext)).
      now rewrite get_app_exact.
    - lia. }
  rewrite Hfound.
  destruct (Z.ltb_spec sp (d + 9)) as [_ | Hge]; [| lia]. simpl.
  assert (Hcut : Z.to_nat (d + 9) = String.length (base ++ "_anaglyph")).
  { rewrite length_append, Hlen. simpl. lia. }
  rewrite Hcut. unfold p. rewrite <- append_assoc.
  now rewrite take_app_exact, drop_app_exact.
Qed.

Lemma image_extension_not_empty (filename : string) :
  has_image_extension filename = true -> extension filename <> "".
Proof.
  unfold has_image_extension. intros Hext Hempty.
  rewrite Hempty in Hext. discriminate.
Qed.

Lemma length_anaglyph_name (filename : string) :
  String.length (anaglyph_name filename) = (String.length filename + 9)%nat.
Proof.
  rewrite <- (stem_extension filename) at 2.
  unfold anaglyph_name. rewrite !length_append. simpl. lia.
Qed.

Lemma prefix_empty (s : string) : String.prefix "" s = true.
Proof. now destruct s. Qed.

Lemma prefix_char (c a : ascii) (s : string) :
  String.prefix (String c "") (String a s)
  = if ascii_dec c a then true else false.
Proof.
  cbn [String.prefix]. destruct (ascii_dec c a); [apply prefix_empty | reflexivity].
Qed.

Lemma absolute_anaglyph_name (filename : string) :
  String.prefix "/" (anaglyph_name filename) = true ->
  String.prefix "/" filename = true.
Proof.
  assert (Hsplit := stem_extension filename).
  unfold anaglyph_name. destruct (stem filename) as [| a s].
  - intros Habs. discriminate Habs.
  - rewrite <- Hsplit. cbn [append]. rewrite !prefix_char.
    intros Habs. exact Habs.
Qed.

Lemma length_join (a b : string) :
  exists extra : nat,
    forall name, String.prefix "/" name = false ->
      String.length (join a name) = (extra + String.length name)%nat.
Proof.
  unfold join. destruct (String.eqb a "" || endswith_char "/" a).
  - exists (String.length a). intros name ->. apply length_append.
  - exists (String.length a + 1)%nat. intros name ->.
    rewrite !length_append. simpl. lia.
Qed.

Lemma length_join_ge (a b : string) :
  (String.length b <= String.length (join a b))%nat.
Proof.
  unfold join. destruct (String.prefix "/" b); [lia |].
  destruct (String.eqb a "" || endswith_char "/" a);
    rewrite !length_append; simpl; lia.
Qed.

(** X13: the output of a converted entry keeps the extension of the
    entry as it was written, so it is saved in the format of its name;
    and the name of the output has an image extension again. *)
Theorem output_keeps_extension (filename : string) :
  has_image_extension filename = true ->
  splitext (anaglyph_name filename)
  = (stem filename ++ "_anaglyph", extension filename) /\
  has_image_extension (anaglyph_name filename) = true.
Proof.
  intros Hext.
  assert (Hsplit := splitext_anaglyph_name filename
                      (image_extension_not_empty filename Hext)).
  split; [exact Hsplit |].
  unfold has_image_extension, extension in *. now rewrite Hsplit.
Qed.

(** X14: in one and the same directory the output path of an entry is
    never the path of the entry: a batch whose output directory is its
    input directory does not write an anaglyph over its own source. *)
Theorem output_path_is_not_input_path (dir filename : string) :
  join dir (anaglyph_name filename) <> join dir filename.
Proof.
  intros Heq. apply (f_equal String.length) in Heq.
  assert (Hlen := length_anaglyph_name filename).
  destruct (String.prefix "/" filename) eqn:Habs.
  - assert (Hge := length_join_ge dir (anaglyph_name filename)).
    unfold join at 2 in Heq. rewrite Habs in Heq. lia.
  - assert (Habs' : String.prefix "/" (anaglyph_name filename) = false).
    { destruct (String.prefix "/" (anaglyph_name filename)) eqn:H; [| reflexivity].
      apply absolute_anaglyph_name in H. congruence. }
    destruct (length_join dir filename) as [extra Hextra].
    rewrite (Hextra _ Habs), (Hextra _ Habs') in Heq. lia.
Qed.

(** ** These theorems at work on the sample platform *)

Lemma photo_well_shaped : well_shaped photo.
Proof.
  split; [reflexivity | repeat constructor].
Qed.

Lemma photo_eight_bit x y :
  (x < xsize photo)%nat -> (y < ysize photo)%nat ->
  eight_bit (getpixel black photo x y).
Proof.
  simpl. intros Hx Hy.
  destruct x as [| [| [| x]]]; destruct y as [| [| y]]; try lia;
    unfold eight_bit; simpl; lia.
Qed.

Lemma sample_isdir_exists (d : Disk) (path : string) :
  sample_isdir path d = true -> sample_exists path d = true.
Proof.
  unfold sample_isdir, sample_exists.
  destruct (find_node path d) as [[names | content] |];
    intros Hdir; try reflexivity; discriminate Hdir.
Qed.

Lemma conversions_add_their_offsets_witness :
  exists out,
    anaglyph_of photo 1 = inr out /\
    offset_in_range 2 /\
    offset_in_range (1 + 2) /\
    anaglyph_of out 2 = anaglyph_of photo (1 + 2).
Proof.
  assert (H2 : offset_in_range 2) by (unfold offset_in_range; lia).
  assert (H3 : offset_in_range (1 + 2)) by (unfold offset_in_range; lia).
  eexists. split; [reflexivity |]. split; [exact H2 |]. split; [exact H3 |].
  apply (conversions_add_their_offsets photo _ 1 2); [reflexivity | exact H2 | exact H3].
Defined.

Lemma opposite_offset_restores_image_witness :
  exists out,
    anaglyph_of photo 1 = inr out /\
    offset_in_range (- 1) /\
    anaglyph_of out (- 1) = inr photo.
Proof.
  assert (Hback : offset_in_range (- 1)) by (unfold offset_in_range; lia).
  eexists. split; [reflexivity |]. split; [exact Hback |].
  apply (opposite_offset_restores_image photo _ 1);
    [exact photo_well_shaped | reflexivity | exact Hback].
Defined.

Lemma multiple_of_width_is_identity_witness :
  offset_in_range (-6) /\
  (-6) mod Z.of_nat (xsize photo) = 0 /\
  anaglyph_of photo (-6) = inr photo.
Proof.
  assert (Hin : offset_in_range (-6)) by (unfold offset_in_range; lia).
  split; [exact Hin |]. split; [reflexivity |].
  apply (multiple_of_width_is_identity photo (-6));
    [exact photo_well_shaped | exact Hin | reflexivity].
Defined.

Lemma channels_stay_eight_bit_witness :
  exists out,
    anaglyph_of photo 2 = inr out /\
    forall x y, (x < xsize out)%nat -> (y < ysize out)%nat ->
      eight_bit (getpixel black out x y).
Proof.
  eexists. split; [reflexivity |].
  apply (channels_stay_eight_bit photo _ 2);
    [exact photo_eight_bit | reflexivity].
Defined.

(** The photograph loads and the offset is one past the range. *)
Lemma converter_returns_true_iff_witness :
  load (P := sample) "photo.jpg" (fs start) = inr photo /\
  ~ offset_in_range 2147483649 /\
  fst (create_anaglyph (P := sample) "photo.jpg" "o.jpg" 2147483649 start)
  = Raised (OverflowError (- 2147483649)).
Proof.
  assert (Hout : ~ offset_in_range 2147483649) by (unfold offset_in_range; lia).
  split; [reflexivity |]. split; [exact Hout |].
  apply (proj1 (proj2 (converter_returns_true_iff (P := sample)
                         "photo.jpg" "o.jpg" 2147483649 start))).
  split; [exists photo; reflexivity |]. split; [exact Hout | reflexivity].
Defined.

(** An output path without extension: the sample encoder refuses it. *)
Lemma save_failure_is_reported_witness :
  exists out,
    anaglyph_of photo 10 = inr out /\
    create_anaglyph (P := sample) "photo.jpg" "anaglyph" 10 start
    = (Returned false,
       mkWorld (P := sample) disk
         [Called "photo.jpg" "anaglyph" 10;
          Opened "photo.jpg";
          Saved "anaglyph" out;
          Printed "Error saving anaglyph: unknown file extension"]).
Proof.
  eexists. split; [reflexivity |].
  apply (save_failure_is_reported (P := sample)
           "photo.jpg" "anaglyph" 10 start photo _
           "unknown file extension" disk);
    reflexivity.
Defined.

Lemma one_line_per_entry_witness :
  List.length
    (printed (log (snd (process_directory (P := sample) "in" "out" 10 start))))
  = 3%nat.
Proof.
  apply (one_line_per_entry (P := sample) "in" "out" 10 start
           (mkWorld (P := sample) disk [Tested "out"; Listed "in"])
           ["photo.JPG"; "notes.txt"; "pic.png"]);
    reflexivity.
Defined.

Lemma saved_files_are_planned_outputs_witness :
  exists l,
    saved_images
      (log (snd (process_directory (P := sample) "in" "out" 10 start)))
    = ([] ++ l)%list /\
    Forall (fun saved =>
              exists filename,
                In filename ["photo.JPG"; "notes.txt"; "pic.png"] /\
                has_image_extension filename = true /\
                fst saved = join "out" (anaglyph_name filename)) l.
Proof.
  apply (saved_files_are_planned_outputs (P := sample) "in" "out" 10 start
           (mkWorld (P := sample) disk [Tested "out"; Listed "in"])
           ["photo.JPG"; "notes.txt"; "pic.png"]).
  reflexivity.
Defined.

(** The input path is a file: the listing fails, after the output
    directory has been made. *)
Lemma batch_raises_before_any_conversion_witness :
  process_directory (P := sample) "photo.jpg" "new" 10 start
  = (Raised (@LibraryError sample "Not a directory"),
     mkWorld (P := sample) (("new", Directory []) :: disk)
       [Tested "new"; MadeDirs "new"; Listed "photo.jpg"]) /\
  (((exists cause : @Err sample,
       @LibraryError sample "Not a directory" = @LibraryError sample cause) /\
    calls [Tested "new"; MadeDirs "new"; Listed "photo.jpg"] = [] /\
    saved_images [Tested "new"; MadeDirs "new"; Listed "photo.jpg"] = [] /\
    printed [Tested "new"; MadeDirs "new"; Listed "photo.jpg"] = []) \/
   (@LibraryError sample "Not a directory" = OverflowError (- 10) /\
    ~ offset_in_range 10)).
Proof.
  split; [reflexivity |].
  exact (batch_raises_before_any_conversion (P := sample)
           "photo.jpg" "new" 10 start
           (mkWorld (P := sample) (("new", Directory []) :: disk)
              [Tested "new"; MadeDirs "new"; Listed "photo.jpg"])
           (@LibraryError sample "Not a directory") eq_refl).
Defined.

Lemma command_line_makes_no_directory_witness :
  made_dirs
    (log (snd (main (P := sample) ["create_anaglyph.py"; "in"; "out"] start)))
  = [].
Proof.
  apply (command_line_makes_no_directory (P := sample)
           ["create_anaglyph.py"; "in"; "out"] start).
  intros path. apply sample_isdir_exists.
Defined.

Lemma run_depends_on_paths_and_offset_value_witness :
  int " +1_0 " = Some 10 /\
  int "10" = Some 10 /\
  main (P := sample) ["create_anaglyph.py"; "photo.jpg"; "o.jpg"; " +1_0 "; "x"] start
  = main (P := sample) ["./run"; "photo.jpg"; "o.jpg"; "10"] start /\
  (10 = 10 ->
   main (P := sample) ["create_anaglyph.py"; "photo.jpg"; "o.jpg"] start
   = main (P := sample) ["./run"; "photo.jpg"; "o.jpg"; "10"] start).
Proof.
  split; [reflexivity |]. split; [reflexivity |].
  apply (run_depends_on_paths_and_offset_value (P := sample)
           "create_anaglyph.py" "./run" "photo.jpg" "o.jpg" " +1_0 " "10"
           ["x"] [] 10 start); reflexivity.
Defined.

Lemma refused_run_touches_nothing_witness :
  main (P := sample) ["create_anaglyph.py"; "in"; "photo.jpg"; "3"] start
  = (Exited 1,
     mkWorld (P := sample) disk
       [Tested "in"; Tested "photo.jpg"; Printed mismatch]) /\
  1 = 1 /\
  disk = disk /\
  ((exists l, [Tested "in"; Tested "photo.jpg"; Printed mismatch]
              = ([] ++ l ++ [Printed usage])%list /\
              calls l = [] /\ saved_images l = [] /\
              made_dirs l = [] /\ listings l = [] /\ printed l = []) \/
   (exists l, [Tested "in"; Tested "photo.jpg"; Printed mismatch]
              = ([] ++ l ++ [Printed mismatch])%list /\
              calls l = [] /\ saved_images l = [] /\
              made_dirs l = [] /\ listings l = [] /\ printed l = [])).
Proof.
  split; [reflexivity |].
  exact (refused_run_touches_nothing (P := sample)
           ["create_anaglyph.py"; "in"; "photo.jpg"; "3"] start
           (mkWorld (P := sample) disk
              [Tested "in"; Tested "photo.jpg"; Printed mismatch])
           1 eq_refl).
Defined.

Lemma output_keeps_extension_witness :
  has_image_extension "photo.JPG" = true /\
  splitext (anaglyph_name "photo.JPG") = ("photo_anaglyph", ".JPG") /\
  has_image_extension (anaglyph_name "photo.JPG") = true.
Proof.
  split; [reflexivity |].
  exact (output_keeps_extension "photo.JPG" eq_refl).
Defined.
